(** * The admission handler of [extensions/pkg/webhook/handler.go]

    A shallow embedding of the handler builder ([NewBuilder], [WithMutator],
    [WithValidator], [WithPredicates], [Build]) and of the request path
    ([Handle], [handle], [buildTypesMap]), followed by the properties of the
    dispatch core that the specification states about them. *)

From Stdlib Require Import ZArith.
From Stdlib.Strings Require Import Byte.
From stdpp Require Import base option list strings countable gmap fin_maps.

Local Open Scope Z_scope.

(** ** Type identifiers *)

(** [metav1.GroupVersionKind]: a struct of three strings, compared field by
    field, used as the key of both registries. *)
Record GroupVersionKind := mkGVK {
  Group : string;
  Version : string;
  Kind : string
}.

#[global] Instance GroupVersionKind_eq_dec : EqDecision GroupVersionKind.
Proof. solve_decision. Defined.

#[global] Instance GroupVersionKind_countable : Countable GroupVersionKind.
Proof.
  refine (inj_countable' (fun g => (Group g, Version g, Kind g))
                         (fun t => mkGVK t.1.1 t.1.2 t.2) _).
  by intros [].
Defined.

(** [runtime.APIVersionInternal]. *)
Definition APIVersionInternal : string := "__internal".

(** The condition of the two fallback loops of [Handle]:
    [gvk.Version == runtime.APIVersionInternal && gvk.Group == ar.Kind.Group
     && gvk.Kind == ar.Kind.Kind]. *)
Definition isInternalOf (gvk kind : GroupVersionKind) : bool :=
  bool_decide (Version gvk = APIVersionInternal)
  && bool_decide (Group gvk = Group kind)
  && bool_decide (Kind gvk = Kind kind).

(** The only identifier that can satisfy [isInternalOf _ kind]. *)
Definition internalOf (kind : GroupVersionKind) : GroupVersionKind :=
  mkGVK (Group kind) APIVersionInternal (Kind kind).

(** ** Go maps and [range] *)

(** A [for k, v := range m] loop visits every entry of [m] exactly once, in an
    order the language leaves unspecified.  A [RangeOrder] is one choice of
    that order for every map; what is proved for all [RangeOrder]s holds
    whatever order a run takes.  ([Build] and [Handle] range once over each
    map they hold; the inner loop of [Build] may meet the same types map under
    two mutators, and its outcome does not depend on the order, see
    [range_register].) *)
Record RangeOrder := {
  range : forall {K V : Type} `{Countable K}, gmap K V -> list (K * V);
  range_perm : forall {K V : Type} `{Countable K} (m : gmap K V),
      range m ≡ₚ map_to_list m
}.

(** A [range] loop that stops with [break] at the first entry whose key
    satisfies [p]: the value assigned there, or the zero value ([None]). *)
Definition rangeFind {K V : Type} (p : K -> bool) (entries : list (K * V)) : option V :=
  snd <$> List.find (fun kv => p (fst kv)) entries.

(** ** The collaborators

    The handler is written against interfaces of apimachinery,
    controller-runtime and the package's own [Mutator] and [Validator].  What
    they compute is not this file's business; they are taken as the fields of
    a [World].  Go objects are values here: a method that changes its argument
    in place returns the argument's new state. *)
Class World := {
  (** a non-nil [runtime.Object] *)
  Object : Type;
  (** a non-nil [error] *)
  GoError : Type;
  (** [context.Context] *)
  Ctx : Type;
  (** [*runtime.Scheme] *)
  Scheme : Type;
  (** [runtime.Decoder] *)
  Decoder : Type;
  (** [metav1.Object], the result of [meta.Accessor] *)
  Metadata : Type;
  (** the operations of a JSON patch, [[]jsonpatch.JsonPatchOperation] *)
  Patches : Type;
  (** implementations of [Mutator] supplied by the package's users *)
  CustomMutator : Type;
  (** implementations of [Validator] supplied by the package's users *)
  CustomValidator : Type;
  CustomMutator_eq_dec :: EqDecision CustomMutator;
  CustomMutator_countable :: Countable CustomMutator;
  CustomValidator_eq_dec :: EqDecision CustomValidator;
  CustomValidator_countable :: Countable CustomValidator;
  (** [apiutil.GVKForObject(t, scheme)] *)
  GVKForObject : Object -> Scheme -> GoError + GroupVersionKind;
  (** [serializer.NewCodecFactory(scheme).UniversalDecoder()] *)
  UniversalDecoder : Scheme -> Decoder;
  (** [decoder.Decode(raw, nil, into)]: the state of [into] after the call,
      and the error *)
  Decode : Decoder -> list byte -> Object -> Object * option GoError;
  (** [meta.Accessor(obj)] *)
  Accessor : Object -> GoError + Metadata;
  (** [equality.Semantic.DeepEqual(a, b)] *)
  SemanticDeepEqual : Object -> Object -> bool;
  (** [json.Marshal(obj)] *)
  Marshal : Object -> GoError + list byte;
  (** [jsonpatch.CreatePatch(original, current)] *)
  CreatePatch : list byte -> list byte -> GoError + Patches;
  (** [c.Mutate(ctx, new, old)] of a user's mutator: the state of [new] after
      the call, and the error *)
  customMutate : CustomMutator -> Ctx -> Object -> option Object -> Object * option GoError;
  (** whether the dynamic type of a user's mutator also has the method set of
      [Validator], which is what the assertion [m.(Validator)] tests *)
  customIsValidator : CustomMutator -> bool;
  (** [v.Validate(ctx, new, old)]: the state of [new] after the call (a
      validator is not supposed to touch it, nothing stops it), and the error *)
  Validate : CustomValidator -> Ctx -> Object -> option Object -> Object * option GoError
}.

Section Handler.

Context `{W : World}.

(** [t.DeepCopyObject()]: objects are values, a deep copy is the value. *)
Definition DeepCopyObject (t : Object) : Object := t.

(** [predicate.Predicate], as far as the handler uses it: the verdict of the
    predicate on an object. *)
Definition Predicate : Type := Object -> bool.

(** Modelled from the spec: the interface [Mutator] and the adapter type
    behind [hybridValidator] are declared in a file of the package that is not
    among the sources.  A mutator is either a user's implementation or a
    validator wrapped by the adapter. *)
Inductive Mutator :=
| custom (c : CustomMutator)
| validationWrapper (v : CustomValidator).

#[global] Instance Mutator_eq_dec : EqDecision Mutator.
Proof. solve_decision. Defined.

#[global] Instance Mutator_countable : Countable Mutator.
Proof.
  refine (inj_countable'
            (fun m => match m with custom c => inl c | validationWrapper v => inr v end)
            (fun s => match s with inl c => custom c | inr v => validationWrapper v end) _).
  by intros [].
Defined.

(** Modelled from the spec: [hybridValidator] is missing from the sources.
    Section 4.4: "Wraps a Validator as a Mutator".  Whether two adapters of
    one validator are the same key of the builder's map is not said there;
    they are the same value here, and nothing below is stated about two
    registrations of one validator. *)
Definition hybridValidator (validator : CustomValidator) : Mutator :=
  validationWrapper validator.

(** Modelled from the spec: the method [Mutate] of the adapter is missing from
    the sources.  Section 4.4: "mutate(ctx, newResource, old) =
    validate(newResource, old)".  A user's mutator runs its own method. *)
Definition Mutate (m : Mutator) (ctx : Ctx) (new : Object) (old : option Object)
  : Object * option GoError :=
  match m with
  | custom c => customMutate c ctx new old
  | validationWrapper v => Validate v ctx new old
  end.

(** Modelled from the spec: the type assertion [m.(Validator)] of [handle]
    depends on the method set of the adapter type, which is missing from the
    sources.  Section 4.4: the adapter is "marked internally so the Dispatcher
    can apply the no-patch rule".  For a user's mutator the assertion holds
    exactly when its type happens to have a [Validate] method too. *)
Definition assertValidator (m : Mutator) : bool :=
  match m with
  | custom c => customIsValidator c
  | validationWrapper _ => true
  end.

(** Modelled from the spec: [extensionspredicate.EvalGeneric] is missing from
    the sources.  Section 3: the "chain is AND-combined, short-circuiting on
    first false". *)
Fixpoint EvalGeneric (obj : Object) (predicates : list Predicate) : bool :=
  match predicates with
  | [] => true
  | p :: rest => if p obj then EvalGeneric obj rest else false
  end.

(** ** Requests and responses *)

(** [runtime.RawExtension], of which the handler reads [Raw]. *)
Record RawExtension := { Raw : list byte }.

(** [admission.Request]: the fields of the embedded [AdmissionRequest] that
    the handler reads.  [req.Kind] and [req.Object] are called [ReqKind] and
    [ReqObject] here, [Kind] and [Object] being taken. *)
Record Request := {
  ReqKind : GroupVersionKind;
  ReqObject : RawExtension;
  OldObject : RawExtension
}.

(** The message of the error handed to [admission.Errored]. *)
Inductive Reason :=
| UnexpectedRequestKind (kind : GroupVersionKind)
| CouldNotDecodeRequest (ar : Request) (err : GoError)
| CouldNotGetAccessor (obj : Object) (err : GoError)
| CouldNotDecodeOldObject (oldObj : Object) (err : GoError)
| ErrorOf (err : GoError)
| StatusReason (reason : string).

(** [admission.Response], by the three shapes the helpers below build:
    allowed without a patch, allowed with a JSON patch, and not allowed with a
    status code. *)
Inductive Response :=
| Allow (reason : string)
| AllowPatch (patches : Patches)
| Deny (code : Z) (reason : Reason).

Definition StatusBadRequest : Z := 400.
Definition StatusForbidden : Z := 403.
Definition StatusInternalServerError : Z := 500.

(** [admission.Errored(code, err)]. *)
Definition Errored (code : Z) (err : Reason) : Response := Deny code err.

(** [admission.ValidationResponse(allowed, reason)]. *)
Definition ValidationResponse (allowed : bool) (reason : string) : Response :=
  if allowed then Allow reason else Deny StatusForbidden (StatusReason reason).

(** [admission.PatchResponseFromRaw(original, current)]: the patch from
    [original] to [current], or an internal error when it cannot be built. *)
Definition PatchResponseFromRaw (original current : list byte) : Response :=
  match CreatePatch original current with
  | inl err => Errored StatusInternalServerError (ErrorOf err)
  | inr patches => AllowPatch patches
  end.

Definition isAllow (r : Response) : bool :=
  match r with Allow _ => true | _ => false end.

Definition isAllowPatch (r : Response) : bool :=
  match r with AllowPatch _ => true | _ => false end.

Definition isDeny (code : Z) (r : Response) : bool :=
  match r with Deny c _ => bool_decide (c = code) | _ => false end.

(** ** The builder *)

(** [HandlerBuilder].  The logger is left out: it names log lines only. *)
Record HandlerBuilder := {
  b_mutatorMap : gmap Mutator (list Object);
  b_predicates : list Predicate;
  b_scheme : Scheme
}.

(** [NewBuilder(mgr, logger)], with [mgr.GetScheme()] for [scheme]. *)
Definition NewBuilder (scheme : Scheme) : HandlerBuilder :=
  {| b_mutatorMap := ∅; b_predicates := []; b_scheme := scheme |}.

(** [b.mutatorMap[mutator]]: the zero value, a nil slice, for a missing key. *)
Definition typesOf (b : HandlerBuilder) (mutator : Mutator) : list Object :=
  default [] (b_mutatorMap b !! mutator).

Definition WithMutator (mutator : Mutator) (types : list Object) (b : HandlerBuilder)
  : HandlerBuilder :=
  {| b_mutatorMap := <[mutator := typesOf b mutator ++ types]> (b_mutatorMap b);
     b_predicates := b_predicates b;
     b_scheme := b_scheme b |}.

Definition WithValidator (validator : CustomValidator) (types : list Object)
  (b : HandlerBuilder) : HandlerBuilder :=
  let mutator := hybridValidator validator in
  {| b_mutatorMap := <[mutator := typesOf b mutator ++ types]> (b_mutatorMap b);
     b_predicates := b_predicates b;
     b_scheme := b_scheme b |}.

Definition WithPredicates (predicates : list Predicate) (b : HandlerBuilder)
  : HandlerBuilder :=
  {| b_mutatorMap := b_mutatorMap b;
     b_predicates := b_predicates b ++ predicates;
     b_scheme := b_scheme b |}.

(** The error of [Build]: [errors.Wrapf(err, "could not get GroupVersionKind
    from object %v", t)]. *)
Inductive BuildError :=
| CouldNotGetGVK (t : Object) (err : GoError).

(** The loop of [buildTypesMap] over the slice [types], from the map built so
    far. *)
Fixpoint buildTypesLoop (scheme : Scheme) (types : list Object)
  (typesMap : gmap GroupVersionKind Object) : BuildError + gmap GroupVersionKind Object :=
  match types with
  | [] => inr typesMap
  | t :: rest =>
      match GVKForObject t scheme with
      | inl err => inl (CouldNotGetGVK t err)
      | inr gvk => buildTypesLoop scheme rest (<[gvk := t]> typesMap)
      end
  end.

Definition buildTypesMap (scheme : Scheme) (types : list Object)
  : BuildError + gmap GroupVersionKind Object :=
  buildTypesLoop scheme types ∅.

(** The struct [handler].  The logger is left out, as in the builder. *)
Record handler := {
  typesMap : gmap GroupVersionKind Object;
  mutatorMap : gmap GroupVersionKind Mutator;
  predicates : list Predicate;
  decoder : Decoder;
  scheme : Scheme
}.

(** The body of the inner loop of [Build]:
    [h.typesMap[gvk] = obj; h.mutatorMap[gvk] = mutator]. *)
Definition register (mutator : Mutator) (h : handler) (entry : GroupVersionKind * Object)
  : handler :=
  {| typesMap := <[entry.1 := entry.2]> (typesMap h);
     mutatorMap := <[entry.1 := mutator]> (mutatorMap h);
     predicates := predicates h;
     decoder := decoder h;
     scheme := scheme h |}.

(** The outer loop of [Build] over the entries of [b.mutatorMap] in the order
    the [range] visits them. *)
Fixpoint buildLoop (ro : RangeOrder) (sch : Scheme)
  (entries : list (Mutator * list Object)) (h : handler) : BuildError + handler :=
  match entries with
  | [] => inr h
  | (m, t) :: rest =>
      match buildTypesMap sch t with
      | inl err => inl err
      | inr tm =>
          let mutator := m in
          buildLoop ro sch rest (foldl (register mutator) h (range ro tm))
      end
  end.

(** [Build].  The source assigns [h.decoder] after the loop; the loop does not
    read it, and the record is built with it here. *)
Definition Build (ro : RangeOrder) (b : HandlerBuilder) : BuildError + handler :=
  let h := {| typesMap := ∅; mutatorMap := ∅; predicates := b_predicates b;
              decoder := UniversalDecoder (b_scheme b); scheme := b_scheme b |} in
  buildLoop ro (b_scheme b) (range ro (b_mutatorMap b)) h.

(** ** Handling a request *)

(** The calls [handle] makes to its collaborators, by call site.  [handle]
    returns them, in order, next to the response, so that "the mutator is not
    invoked" is a statement about its result. *)
Inductive Event :=
| DecodeObject
| GetAccessor
| DecodeOldObject
| EvalPredicates
| MutateCall (m : Mutator)
| MarshalCall
| CreatePatchCall
| LogError.

#[global] Instance Event_eq_dec : EqDecision Event.
Proof. solve_decision. Defined.

(** A piece of the body of a Go function that returns a [Response]: the calls
    made, and either the response of a [return] statement reached inside it or
    the value it computes for the statements that follow. *)
Definition Step (A : Type) : Type := list Event * (Response + A).

#[global] Instance Step_ret : MRet Step := fun A a => ([], inr a).

#[global] Instance Step_bind : MBind Step := fun A B f s =>
  match s with
  | (calls, inl r) => (calls, inl r)
  | (calls, inr a) => let '(calls', x) := f a in (calls ++ calls', x)
  end.

Definition call (e : Event) : Step unit := ([e], inr tt).

(** [return r]. *)
Definition reply {A : Type} (r : Response) : Step A := ([], inl r).

(** [if err != nil { ... return ... }]. *)
Definition onError (err : option GoError) (k : GoError -> Step unit) : Step unit :=
  match err with
  | Some e => k e
  | None => mret tt
  end.

(** The calls of a function body and the response it returns. *)
Definition run (s : Step Response) : list Event * Response :=
  (s.1, match s.2 with inl r => r | inr r => r end).

Definition handle (ctx : Ctx) (req : Request) (m : Mutator) (t : Object)
  (decoder : Decoder) (predicates : list Predicate) : list Event * Response :=
  run (
    let ar := req in
    (* Decode object *)
    let obj := DeepCopyObject t in
    call DecodeObject;;
    let '(obj, err) := Decode decoder (Raw (ReqObject req)) obj in
    onError err (fun err =>
      call LogError;;
      reply (Errored StatusBadRequest (CouldNotDecodeRequest ar err)));;
    (* Get object accessor *)
    call GetAccessor;;
    accessor ← match Accessor obj with
               | inl err =>
                   call LogError;;
                   reply (Errored StatusBadRequest (CouldNotGetAccessor obj err))
               | inr accessor => mret accessor
               end;
    (* Only UPDATE and DELETE operations have oldObjects. *)
    oldObj ← (if bool_decide (length (Raw (OldObject req)) ≠ 0%nat) then
                let oldObj := DeepCopyObject t in
                call DecodeOldObject;;
                let '(oldObj, err) := Decode decoder (Raw (OldObject ar)) oldObj in
                match err with
                | Some err =>
                    call LogError;;
                    reply (Errored StatusBadRequest (CouldNotDecodeOldObject oldObj err))
                | None => mret (Some oldObj)
                end
              else mret None);
    (* Run object through predicates *)
    call EvalPredicates;;
    (if negb (EvalGeneric obj predicates)
     then reply (ValidationResponse true "")
     else mret tt);;
    (* Process the resource *)
    let newObj := DeepCopyObject obj in
    call (MutateCall m);;
    let '(newObj, err) := Mutate m ctx newObj oldObj in
    onError err (fun err =>
      call LogError;;
      reply (Errored StatusBadRequest (ErrorOf err)));;
    let isValidator := assertValidator m in
    (* Return a patch response if the resource should be changed *)
    if negb isValidator && negb (SemanticDeepEqual obj newObj) then
      call MarshalCall;;
      oldObjMarshaled ← match Marshal obj with
                        | inl err => reply (Errored StatusInternalServerError (ErrorOf err))
                        | inr bytes => mret bytes
                        end;
      call MarshalCall;;
      newObjMarshaled ← match Marshal newObj with
                        | inl err => reply (Errored StatusInternalServerError (ErrorOf err))
                        | inr bytes => mret bytes
                        end;
      call CreatePatchCall;;
      mret (PatchResponseFromRaw oldObjMarshaled newObjMarshaled)
    else
      (* Return a validation response if the resource should not be changed *)
      mret (ValidationResponse true "")).

(** The two lookups of [Handle]: the entry under the request's identifier, or
    else the first entry the [range] finds under the internal version of its
    group and kind; [None] when the variable is still nil after that. *)
Definition resolve {V : Type} (ro : RangeOrder) (registry : gmap GroupVersionKind V)
  (kind : GroupVersionKind) : option V :=
  match registry !! kind with
  | Some v => Some v
  | None => rangeFind (fun gvk => isInternalOf gvk kind) (range ro registry)
  end.

Definition Handle (ro : RangeOrder) (h : handler) (ctx : Ctx) (req : Request)
  : list Event * Response :=
  let ar := req in
  (* Decode object *)
  match resolve ro (typesMap h) (ReqKind ar) with
  | None => ([], Errored StatusBadRequest (UnexpectedRequestKind (ReqKind ar)))
  | Some t =>
      match resolve ro (mutatorMap h) (ReqKind ar) with
      | None => ([], Errored StatusBadRequest (UnexpectedRequestKind (ReqKind ar)))
      | Some mutator => handle ctx req mutator t (decoder h) (predicates h)
      end
  end.

(** ** What it means for a request to get as far as the mutator *)

(** The old object of a request, as [handle] obtains it: none when the raw
    bytes are empty, else the decoded prototype. *)
Definition oldDecodes (decoder : Decoder) (req : Request) (t : Object)
  (oldObj : option Object) : Prop :=
  if bool_decide (length (Raw (OldObject req)) ≠ 0%nat)
  then exists o, Decode decoder (Raw (OldObject req)) (DeepCopyObject t) = (o, None)
                 /\ oldObj = Some o
  else oldObj = None.

(** Every step of [handle] before the response is shaped succeeds: the new
    object decodes to [obj], its accessor is there, the old object decodes
    when there is one, the predicates let [obj] through, and [Mutate] leaves
    [newObj] and no error. *)
Definition mutatesTo (ctx : Ctx) (req : Request) (m : Mutator) (t : Object)
  (decoder : Decoder) (predicates : list Predicate) (obj newObj : Object) : Prop :=
  Decode decoder (Raw (ReqObject req)) (DeepCopyObject t) = (obj, None)
  /\ (exists accessor, Accessor obj = inr accessor)
  /\ EvalGeneric obj predicates = true
  /\ exists oldObj, oldDecodes decoder req t oldObj
                    /\ Mutate m ctx (DeepCopyObject obj) oldObj = (newObj, None).

(** No call of [Mutate] among the calls made. *)
Definition neverMutates (calls : list Event) : Prop :=
  forall m, MutateCall m ∉ calls.

(** ** What [Build] registers for an identifier *)

(** One step of the loop of [buildTypesMap], seen from one identifier: a type
    that resolves to [gvk] replaces what was found for [gvk] before. *)
Definition declare (sch : Scheme) (gvk : GroupVersionKind) (found : option Object)
  (t : Object) : option Object :=
  match GVKForObject t sch with
  | inr g => if bool_decide (g = gvk) then Some t else found
  | inl _ => found
  end.

(** The last type of the slice [types] that resolves to [gvk]. *)
Definition declared (sch : Scheme) (gvk : GroupVersionKind) (types : list Object)
  : option Object :=
  foldl (declare sch gvk) None types.

(** One step of the outer loop of [Build], seen from one identifier: a mutator
    whose types declare [gvk] replaces what was registered for [gvk] before. *)
Definition visit (sch : Scheme) (gvk : GroupVersionKind) (found : option (Mutator * Object))
  (entry : Mutator * list Object) : option (Mutator * Object) :=
  match declared sch gvk entry.2 with
  | Some t => Some (entry.1, t)
  | None => found
  end.

(** The mutator visited last among those that declare [gvk], with the
    prototype it declares for it. *)
Definition winner (sch : Scheme) (gvk : GroupVersionKind)
  (entries : list (Mutator * list Object)) : option (Mutator * Object) :=
  foldl (visit sch gvk) None entries.

(** ** Injection *)

(** The error of [InjectFunc]:
    [errors.Wrap(err, "could not inject into the mutator")]. *)
Inductive InjectError :=
| CouldNotInject (err : GoError).

(** The loop of [InjectFunc] over the entries of [h.mutatorMap] in the order
    the [range] visits them: the mutators [f] was called on, in order, and the
    error returned.  [f] is the [inject.Func], by the error it reports for a
    mutator. *)
Fixpoint injectLoop (f : Mutator -> option GoError)
  (entries : list (GroupVersionKind * Mutator)) : list Mutator * option InjectError :=
  match entries with
  | [] => ([], None)
  | (_, mutator) :: rest =>
      match f mutator with
      | Some err => ([mutator], Some (CouldNotInject err))
      | None => let '(calls, result) := injectLoop f rest in (mutator :: calls, result)
      end
  end.

Definition InjectFunc (ro : RangeOrder) (h : handler) (f : Mutator -> option GoError)
  : list Mutator * option InjectError :=
  injectLoop f (range ro (mutatorMap h)).

(** ** The order of the calls *)

Definition isLogError (e : Event) : bool :=
  match e with LogError => true | _ => false end.

(** The calls made, log lines aside. *)
Definition withoutLogs (calls : list Event) : list Event :=
  List.filter (fun e => negb (isLogError e)) calls.

(** The calls of the longest path through [handle], in the order of its
    statements; the old object is decoded when its raw bytes are not empty. *)
Definition callSequence (m : Mutator) (withOld : bool) : list Event :=
  [DecodeObject; GetAccessor]
  ++ (if withOld then [DecodeOldObject] else [])
  ++ [EvalPredicates; MutateCall m; MarshalCall; MarshalCall; CreatePatchCall].

(** ** The patch library *)

(** Modelled from the spec: the patch library behind
    [admission.PatchResponseFromRaw] and the application of a patch are no
    code of the package.  Section 6: the patch is "a sequence of (operation,
    path, value) edits sufficient to transform the before serialized form
    into the after serialized form".  [applyPatch patches original] is the
    document the edits make of [original]. *)
Definition transforms (applyPatch : Patches -> list byte -> list byte) : Prop :=
  forall original current patches,
    CreatePatch original current = inr patches ->
    applyPatch patches original = current.

(** A type of the slice resolves to [gvk]. *)
Definition declares (sch : Scheme) (gvk : GroupVersionKind) (types : list Object) : Prop :=
  exists t, t ∈ types /\ GVKForObject t sch = inr gvk.

(** No identifier is declared under two different mutators. *)
Definition uncontested (b : HandlerBuilder) : Prop :=
  forall gvk m1 ts1 m2 ts2,
    b_mutatorMap b !! m1 = Some ts1 -> b_mutatorMap b !! m2 = Some ts2 ->
    declares (b_scheme b) gvk ts1 -> declares (b_scheme b) gvk ts2 -> m1 = m2.

End Handler.

(** ** Two range orders *)

(** The entries in the order [map_to_list] lists them. *)
Definition asListed : RangeOrder :=
  {| range := fun K V _ _ m => map_to_list m;
     range_perm := fun K V _ _ m => reflexivity (map_to_list m) |}.

(** The same entries, last to first. *)
Definition backwards : RangeOrder :=
  {| range := fun K V _ _ m => reverse (map_to_list m);
     range_perm := fun K V _ _ m => reverse_Permutation (map_to_list m) |}.

(** ** A small world to run the handler in *)

Module Widgets.

(** The objects: a widget of group "apps" in some version, with a size; a
    registered kind that carries no object metadata; and a Go type the scheme
    does not know. *)
Inductive object :=
| Widget (version : string) (size : Z)
| Bare (size : Z)
| Unregistered.

#[global] Instance object_eq_dec : EqDecision object.
Proof. solve_decision. Defined.

(** [Doubler] doubles the size; [Idle] leaves the object alone; [Auditor]
    doubles the size and its type has a [Validate] method as well;
    [Grumpy] refuses every object. *)
Inductive mutator := Doubler | Idle | Auditor | Grumpy.

(** [NonNegative] rejects a negative size; [Meddler] accepts everything and
    resets the size to zero on the way. *)
Inductive validator := NonNegative | Meddler.

#[global] Instance mutator_eq_dec : EqDecision mutator.
Proof. solve_decision. Defined.

#[global] Instance mutator_countable : Countable mutator.
Proof.
  refine (inj_countable'
            (fun m => match m with Doubler => 0%nat | Idle => 1%nat | Auditor => 2%nat | Grumpy => 3%nat end)
            (fun n => match n with 0%nat => Doubler | 1%nat => Idle | 2%nat => Auditor | _ => Grumpy end) _).
  by intros [].
Defined.

#[global] Instance validator_eq_dec : EqDecision validator.
Proof. solve_decision. Defined.

#[global] Instance validator_countable : Countable validator.
Proof.
  refine (inj_countable'
            (fun v => match v with NonNegative => false | Meddler => true end)
            (fun b => if b then Meddler else NonNegative) _).
  by intros [].
Defined.

Definition resize (f : Z -> Z) (o : object) : object :=
  match o with
  | Widget v n => Widget v (f n)
  | Bare n => Bare (f n)
  | Unregistered => Unregistered
  end.

Definition sizeOf (o : object) : Z :=
  match o with
  | Widget _ n => n
  | Bare n => n
  | Unregistered => 0
  end.

(** A document is one byte, the size; anything else is malformed. *)
Definition decode (raw : list byte) (into : object) : object * option string :=
  match raw with
  | [b] => (resize (fun _ => Z.of_N (Byte.to_N b)) into, None)
  | _ => (into, Some "malformed document"%string)
  end.

(** A size that does not fit a byte cannot be serialized. *)
Definition marshal (o : object) : string + list byte :=
  match Byte.of_N (Z.to_N (sizeOf o)) with
  | Some b => if bool_decide (0 <= sizeOf o) then inr [b] else inl "unsupported value"%string
  | None => inl "unsupported value"%string
  end.

Definition gvkForObject (o : object) : string + GroupVersionKind :=
  match o with
  | Widget v _ => inr (mkGVK "apps" v "Widget")
  | Bare _ => inr (mkGVK "apps" "v1" "Bare")
  | Unregistered => inl "no kind is registered for the type"%string
  end.

Definition accessor (o : object) : string + string :=
  match o with
  | Widget _ _ => inr "widget"%string
  | _ => inl "object does not implement the Object interfaces"%string
  end.

Definition mutate (m : mutator) (new : object) : object * option string :=
  match m with
  | Doubler | Auditor => (resize (Z.mul 2) new, None)
  | Idle => (new, None)
  | Grumpy => (new, Some "no"%string)
  end.

Definition validate (v : validator) (new : object) : object * option string :=
  match v with
  | NonNegative =>
      (new, if bool_decide (sizeOf new < 0) then Some "invalid size"%string else None)
  | Meddler => (resize (fun _ => 0) new, None)
  end.

(** The patch replaces the document; applying it yields the new document. *)
#[global] Instance world : World :=
  {| Object := object;
     GoError := string;
     Ctx := unit;
     Scheme := unit;
     Decoder := unit;
     Metadata := string;
     Patches := list byte;
     CustomMutator := mutator;
     CustomValidator := validator;
     GVKForObject := fun o _ => gvkForObject o;
     UniversalDecoder := fun _ => tt;
     Decode := fun _ raw into => decode raw into;
     Accessor := accessor;
     SemanticDeepEqual := fun a b => bool_decide (a = b);
     Marshal := marshal;
     CreatePatch := fun original current => inr current;
     customMutate := fun m _ new _ => mutate m new;
     customIsValidator := fun m => bool_decide (m = Auditor);
     Validate := fun v _ new _ => validate v new |}.

Definition applyPatch (patches original : list byte) : list byte := patches.

Definition request (kind : GroupVersionKind) (new old : list byte) : Request :=
  {| ReqKind := kind; ReqObject := {| Raw := new |}; OldObject := {| Raw := old |} |}.

Definition widgetV1 : GroupVersionKind := mkGVK "apps" "v1" "Widget".
Definition widgetV2 : GroupVersionKind := mkGVK "apps" "v2" "Widget".

Definition isPositive : Predicate := fun o => bool_decide (0 < sizeOf o).

Definition doubler : Mutator := custom Doubler.

(** A handler that knows the widget under the internal version only. *)
Definition onlyInternal : handler :=
  {| typesMap := {[ internalOf widgetV1 := Widget "__internal" 0 ]};
     mutatorMap := {[ internalOf widgetV1 := custom Doubler ]};
     predicates := [];
     decoder := tt;
     scheme := tt |}.

(** One mutator declares the widget twice, another declares another kind. *)
Definition twiceDeclared : HandlerBuilder :=
  WithMutator (custom Idle) [Widget "v1" 3; Widget "v1" 4]
    (WithMutator (custom Doubler) [Bare 0] (NewBuilder tt)).

Definition grumpy : Mutator := custom Grumpy.

Definition idle : Mutator := custom Idle.

Definition meddler : Mutator := hybridValidator Meddler.

(** A handler with a validator for the widget. *)
Definition meddling : handler :=
  {| typesMap := {[ widgetV1 := Widget "v1" 0 ]};
     mutatorMap := {[ widgetV1 := hybridValidator Meddler ]};
     predicates := [];
     decoder := tt;
     scheme := tt |}.

(** A builder with a predicate and no mutator. *)
Definition predicatesOnly : HandlerBuilder :=
  WithPredicates [isPositive] (NewBuilder tt).

(** A handler with the doubler for the widget in two versions and the idle
    mutator for the bare kind. *)
Definition threeEntries : handler :=
  {| typesMap := <[ widgetV1 := Widget "v1" 0 ]>
                   (<[ widgetV2 := Widget "v2" 0 ]> {[ mkGVK "apps" "v1" "Bare" := Bare 0 ]});
     mutatorMap := <[ widgetV1 := custom Doubler ]>
                     (<[ widgetV2 := custom Doubler ]> {[ mkGVK "apps" "v1" "Bare" := custom Idle ]});
     predicates := [];
     decoder := tt;
     scheme := tt |}.

(** The injection that fails on [Idle] only. *)
Definition rejectIdle : Mutator -> option GoError :=
  fun m => if bool_decide (m = custom Idle) then Some "no client"%string else None.

(** [Doubler] for the widget in two versions, [Idle] for the bare kind. *)
Definition twoVersions : HandlerBuilder :=
  WithMutator (custom Idle) [Bare 0]
    (WithMutator (custom Doubler) [Widget "v1" 0; Widget "v2" 0] (NewBuilder tt)).

(** Validators only. *)
Definition validatorsOnly : HandlerBuilder :=
  WithValidator Meddler [Widget "v1" 0]
    (WithValidator NonNegative [Widget "v2" 0] (NewBuilder tt)).

(** A type the scheme does not know among the types of a mutator. *)
Definition withUnregistered : HandlerBuilder :=
  WithMutator (custom Doubler) [Widget "v1" 0; Unregistered; Bare 1] (NewBuilder tt).

(** Two mutators declare the widget, [Doubler] first and [Idle] last. *)
Definition contested : HandlerBuilder :=
  WithMutator (custom Idle) [Widget "v1" 0]
    (WithMutator (custom Doubler) [Widget "v1" 7] (NewBuilder tt)).

End Widgets.


(** ** Properties *)

Section Properties.

Context `{W : World}.

Ltac unfold_handle :=
  unfold handle, run, onError, call, reply, oldDecodes, DeepCopyObject in *;
  cbn [mbind mret Step_bind Step_ret fst snd] in *.

(** [handle], statement by statement, with the calls made on each path. *)
Lemma handle_paths ctx req m t decoder predicates :
  handle ctx req m t decoder predicates =
  match Decode decoder (Raw (ReqObject req)) t with
  | (obj, Some err) =>
      ([DecodeObject; LogError], Deny 400 (CouldNotDecodeRequest req err))
  | (obj, None) =>
  match Accessor obj with
  | inl err =>
      ([DecodeObject; GetAccessor; LogError], Deny 400 (CouldNotGetAccessor obj err))
  | inr _ =>
  let old :=
    if bool_decide (length (Raw (OldObject req)) ≠ 0%nat)
    then match Decode decoder (Raw (OldObject req)) t with
         | (oldObj, Some err) => inl (oldObj, err)
         | (oldObj, None) => inr ([DecodeOldObject], Some oldObj)
         end
    else inr ([], None) in
  match old with
  | inl (oldObj, err) =>
      ([DecodeObject; GetAccessor; DecodeOldObject; LogError],
       Deny 400 (CouldNotDecodeOldObject oldObj err))
  | inr (calls, oldObj) =>
  let calls := [DecodeObject; GetAccessor] ++ calls ++ [EvalPredicates] in
  if negb (EvalGeneric obj predicates) then (calls, Allow "") else
  match Mutate m ctx obj oldObj with
  | (newObj, Some err) => (calls ++ [MutateCall m; LogError], Deny 400 (ErrorOf err))
  | (newObj, None) =>
  let calls := calls ++ [MutateCall m] in
  if negb (assertValidator m) && negb (SemanticDeepEqual obj newObj) then
    match Marshal obj with
    | inl err => (calls ++ [MarshalCall], Deny 500 (ErrorOf err))
    | inr oldObjMarshaled =>
    match Marshal newObj with
    | inl err => (calls ++ [MarshalCall; MarshalCall], Deny 500 (ErrorOf err))
    | inr newObjMarshaled =>
        (calls ++ [MarshalCall; MarshalCall; CreatePatchCall],
         PatchResponseFromRaw oldObjMarshaled newObjMarshaled)
    end end
  else (calls, Allow "")
  end end end end.
Proof.
  unfold_handle.
  destruct (Decode decoder (Raw (ReqObject req)) t) as [obj [err|]]; cbn; [done|].
  destruct (Accessor obj) as [err|accessor]; cbn; [done|].
  destruct (bool_decide (length (Raw (OldObject req)) ≠ 0%nat)); cbn.
  - destruct (Decode decoder (Raw (OldObject req)) t) as [oldObj [err|]]; cbn; [done|].
    destruct (EvalGeneric obj predicates); cbn; [|done].
    destruct (Mutate m ctx obj (Some oldObj)) as [newObj [err|]]; cbn; [done|].
    destruct (negb (assertValidator m) && negb (SemanticDeepEqual obj newObj)); cbn; [|done].
    destruct (Marshal obj); cbn; [done|]. by destruct (Marshal newObj).
  - destruct (EvalGeneric obj predicates); cbn; [|done].
    destruct (Mutate m ctx obj None) as [newObj [err|]]; cbn; [done|].
    destruct (negb (assertValidator m) && negb (SemanticDeepEqual obj newObj)); cbn; [|done].
    destruct (Marshal obj); cbn; [done|]. by destruct (Marshal newObj).
Qed.

Ltac handle_cases :=
  rewrite handle_paths; unfold oldDecodes, DeepCopyObject in *;
  repeat first
    [ progress cbn
    | match goal with
      | H : ?x = _ |- context [match ?x with _ => _ end] => rewrite H
      | H : ?x = _ |- context [if ?x then _ else _] => rewrite H
      end ].

(** C10: when the new object decodes and no accessor can be had for it, the
    request is denied with status 400 and the accessor's error, and the calls
    made are the decoding of the new object, the accessor and the log line:
    the old object is not decoded, no predicate and no mutator runs. *)
Theorem handle_accessor_error ctx req m t decoder predicates obj err :
  Decode decoder (Raw (ReqObject req)) (DeepCopyObject t) = (obj, None) ->
  Accessor obj = inl err ->
  handle ctx req m t decoder predicates
  = ([DecodeObject; GetAccessor; LogError],
     Deny 400 (CouldNotGetAccessor obj err)).
Proof.
  intros Hdec Hacc. by handle_cases.
Qed.

(** C1: [WithValidator] registers the validator under the mutator the adapter
    makes of it, and with that mutator [handle] never answers with a patch,
    whatever the wrapped validator did to the object it was given. *)
Theorem validator_never_patches validator :
  (forall types b,
      b_mutatorMap (WithValidator validator types b) !! hybridValidator validator
      = Some (typesOf b (hybridValidator validator) ++ types))
  /\ (forall ctx req t decoder predicates,
        isAllowPatch (handle ctx req (hybridValidator validator) t decoder predicates).2
        = false).
Proof.
  split.
  - intros types b. cbn. by rewrite lookup_insert_eq.
  - intros ctx req t decoder predicates.
    handle_cases. repeat (case_match; try reflexivity).
Qed.

(** The same at [Handle], for every mutator on which the assertion
    [m.(Validator)] holds. *)
Lemma Handle_validator_never_patches ro h ctx req m :
  resolve ro (mutatorMap h) (ReqKind req) = Some m ->
  assertValidator m = true ->
  isAllowPatch (Handle ro h ctx req).2 = false.
Proof.
  intros Hm Hv. unfold Handle. rewrite Hm.
  destruct (resolve ro (typesMap h) (ReqKind req)); [|reflexivity].
  rewrite handle_paths, Hv. cbn. repeat (case_match; try reflexivity).
Qed.

(** The response of a request that got as far as the mutator. *)
Lemma handle_shapes ctx req m t decoder predicates obj newObj :
  mutatesTo ctx req m t decoder predicates obj newObj ->
  (handle ctx req m t decoder predicates).2 =
  if negb (assertValidator m) && negb (SemanticDeepEqual obj newObj) then
    match Marshal obj with
    | inl err => Deny 500 (ErrorOf err)
    | inr oldObjMarshaled =>
        match Marshal newObj with
        | inl err => Deny 500 (ErrorOf err)
        | inr newObjMarshaled => PatchResponseFromRaw oldObjMarshaled newObjMarshaled
        end
    end
  else Allow "".
Proof.
  intros (Hdec & [accessor Hacc] & Hpred & oldObj & Hold & Hmut).
  rewrite handle_paths. unfold oldDecodes, DeepCopyObject in *.
  rewrite Hdec, Hacc.
  destruct (bool_decide (length (Raw (OldObject req)) ≠ 0%nat)).
  - destruct Hold as (o & Ho & ->). rewrite Ho. cbn. rewrite Hpred, Hmut. cbn.
    repeat case_match; reflexivity.
  - subst oldObj. cbn. rewrite Hpred, Hmut. cbn.
    repeat case_match; reflexivity.
Qed.

(** C2, amended: for a request that got as far as the mutator, the response is
    a patch exactly when the assertion [m.(Validator)] fails, the mutated
    clone is not semantically equal to the decoded object, both serialize and
    the patch between the two documents can be computed; it is the plain
    [Allow] exactly when the assertion holds or the two objects are equal; in
    the remaining case, a changed object that cannot be serialized or
    patched, it is a denial with status 500. *)
Theorem patch_iff_changed_and_serialized ctx req m t decoder predicates obj newObj :
  mutatesTo ctx req m t decoder predicates obj newObj ->
  (isAllowPatch (handle ctx req m t decoder predicates).2 = true <->
     assertValidator m = false /\ SemanticDeepEqual obj newObj = false
     /\ exists before after patches,
          Marshal obj = inr before /\ Marshal newObj = inr after
          /\ CreatePatch before after = inr patches)
  /\ ((handle ctx req m t decoder predicates).2 = Allow "" <->
        assertValidator m = true \/ SemanticDeepEqual obj newObj = true)
  /\ (isAllowPatch (handle ctx req m t decoder predicates).2 = false ->
      (handle ctx req m t decoder predicates).2 = Allow ""
      \/ isDeny 500 (handle ctx req m t decoder predicates).2 = true).
Proof.
  intros Hm. rewrite (handle_shapes _ _ _ _ _ _ _ _ Hm). unfold PatchResponseFromRaw.
  destruct (assertValidator m), (SemanticDeepEqual obj newObj); cbn;
    try (split; [split; [discriminate | intros (? & ? & _); discriminate]
                | split; [split; auto | auto]]).
  destruct (Marshal obj) as [e|before]; cbn.
  { split; [split; [discriminate | intros (_ & _ & ? & ? & ? & ? & _); discriminate]|].
    split; [split; [discriminate | intros [?|?]; discriminate] | auto]. }
  destruct (Marshal newObj) as [e|after]; cbn.
  { split; [split; [discriminate | intros (_ & _ & ? & ? & ? & _ & ? & _); discriminate]|].
    split; [split; [discriminate | intros [?|?]; discriminate] | auto]. }
  destruct (CreatePatch before after) as [e|patches] eqn:Hp; cbn.
  { split; [split; [discriminate|]|].
    - intros (_ & _ & b & a & ps & Hb & Ha & Hps). congruence.
    - split; [split; [discriminate | intros [?|?]; discriminate] | auto]. }
  split; [split; [intros _; eauto 10 | reflexivity]|].
  split; [split; [discriminate | intros [?|?]; discriminate] | discriminate].
Qed.

(** C3, amended: when the assertion [m.(Validator)] fails and the mutated clone
    is not semantically equal to the decoded object, the response is decided
    by the serialization.  When both objects serialize and the patch library
    builds a patch from the document before to the document after, the
    response is that patch.  Whenever the response is a patch, it is the
    library's patch between these two documents, in that order, so that
    applying it to the document before yields the document after, the
    library's patches being what section 6 says they are.  When the decoded
    object, the mutated object or the patch cannot be built, the request is
    denied with status 500 and the error. *)
Theorem patch_round_trip ctx req m t decoder predicates obj newObj :
  mutatesTo ctx req m t decoder predicates obj newObj ->
  assertValidator m = false ->
  SemanticDeepEqual obj newObj = false ->
  (forall before after patches,
      Marshal obj = inr before -> Marshal newObj = inr after ->
      CreatePatch before after = inr patches ->
      (handle ctx req m t decoder predicates).2 = AllowPatch patches)
  /\ (forall patches,
        (handle ctx req m t decoder predicates).2 = AllowPatch patches ->
        exists before after,
          Marshal obj = inr before /\ Marshal newObj = inr after
          /\ CreatePatch before after = inr patches
          /\ forall applyPatch,
              transforms applyPatch -> applyPatch patches before = after)
  /\ (forall err,
        Marshal obj = inl err ->
        (handle ctx req m t decoder predicates).2 = Deny 500 (ErrorOf err))
  /\ (forall before err,
        Marshal obj = inr before -> Marshal newObj = inl err ->
        (handle ctx req m t decoder predicates).2 = Deny 500 (ErrorOf err))
  /\ (forall before after err,
        Marshal obj = inr before -> Marshal newObj = inr after ->
        CreatePatch before after = inl err ->
        (handle ctx req m t decoder predicates).2 = Deny 500 (ErrorOf err)).
Proof.
  intros Hm Hv Hne.
  rewrite (handle_shapes _ _ _ _ _ _ _ _ Hm), Hv, Hne. cbn.
  unfold PatchResponseFromRaw.
  split; [|split; [|split; [|split]]].
  - intros before after patches -> -> ->. reflexivity.
  - intros patches Hr.
    destruct (Marshal obj) as [err|before]; [discriminate Hr|].
    destruct (Marshal newObj) as [err|after]; [discriminate Hr|].
    destruct (CreatePatch before after) as [err|ps] eqn:Hps; [discriminate Hr|].
    injection Hr as ->. exists before, after.
    split; [reflexivity|]. split; [reflexivity|]. split; [exact Hps|].
    intros applyPatch Hlaw. by apply Hlaw.
  - intros err ->. reflexivity.
  - intros before err -> ->. reflexivity.
  - intros before after err -> -> ->. reflexivity.
Qed.

(** [EvalGeneric] is false exactly when some predicate of the chain is. *)
Lemma EvalGeneric_false obj (predicates : list Predicate) :
  EvalGeneric obj predicates = false <-> exists p, p ∈ predicates /\ p obj = false.
Proof.
  induction predicates as [|p rest IH]; cbn.
  - split; [discriminate | intros (p & Hp & _); by apply elem_of_nil in Hp].
  - destruct (p obj) eqn:Hp.
    + rewrite IH. split.
      * intros (q & Hq & Hf). exists q. split; [by apply elem_of_cons; right | done].
      * intros (q & Hq & Hf). apply elem_of_cons in Hq as [->|Hq]; [congruence|eauto].
    + split; [|done]. intros _. exists p. split; [apply elem_of_cons; by left | done].
Qed.

Ltac no_mutate :=
  intros ? Hin; cbn in Hin;
  repeat (apply elem_of_cons in Hin as [Hin|Hin]; [discriminate|]);
  by apply elem_of_nil in Hin.

(** C4, amended: when the new object decodes and some predicate of the chain
    is false for it, [Mutate] is not called; and when, besides, the accessor
    is there and the old object, if any, decodes, the response is the plain
    [Allow]. *)
Theorem predicate_false_allows ctx req m t decoder predicates obj :
  Decode decoder (Raw (ReqObject req)) (DeepCopyObject t) = (obj, None) ->
  (exists p, p ∈ predicates /\ p obj = false) ->
  neverMutates (handle ctx req m t decoder predicates).1
  /\ ((exists accessor, Accessor obj = inr accessor) ->
      (exists oldObj, oldDecodes decoder req t oldObj) ->
      (handle ctx req m t decoder predicates).2 = Allow "").
Proof.
  intros Hdec Hp. apply EvalGeneric_false in Hp.
  rewrite handle_paths. unfold oldDecodes, DeepCopyObject in *. rewrite Hdec.
  split.
  - destruct (Accessor obj); [no_mutate|].
    destruct (bool_decide (length (Raw (OldObject req)) ≠ 0%nat)); cbn.
    + destruct (Decode decoder (Raw (OldObject req)) t) as [o [e|]]; cbn;
        rewrite ?Hp; cbn; no_mutate.
    + rewrite Hp. cbn. no_mutate.
  - intros [accessor Hacc] [oldObj Hold]. rewrite Hacc.
    destruct (bool_decide (length (Raw (OldObject req)) ≠ 0%nat)); cbn.
    + destruct Hold as (o & -> & _). cbn. by rewrite Hp.
    + by rewrite Hp.
Qed.

(** C7: a new object that does not decode is denied with status 400 and the
    decoding error; the old object is decoded only when its raw bytes are not
    empty; an old object that is there and does not decode is denied with
    status 400, with its decoding error when the request gets that far; and in
    neither case is [Mutate] called. *)
Theorem decode_errors_deny ctx req m t decoder predicates :
  (forall obj err,
      Decode decoder (Raw (ReqObject req)) (DeepCopyObject t) = (obj, Some err) ->
      (handle ctx req m t decoder predicates).2 = Deny 400 (CouldNotDecodeRequest req err)
      /\ neverMutates (handle ctx req m t decoder predicates).1)
  /\ (Raw (OldObject req) = [] ->
      DecodeOldObject ∉ (handle ctx req m t decoder predicates).1)
  /\ (forall oldObj err,
      Raw (OldObject req) ≠ [] ->
      Decode decoder (Raw (OldObject req)) (DeepCopyObject t) = (oldObj, Some err) ->
      isDeny 400 (handle ctx req m t decoder predicates).2 = true
      /\ neverMutates (handle ctx req m t decoder predicates).1
      /\ forall obj accessor,
          Decode decoder (Raw (ReqObject req)) (DeepCopyObject t) = (obj, None) ->
          Accessor obj = inr accessor ->
          (handle ctx req m t decoder predicates).2
          = Deny 400 (CouldNotDecodeOldObject oldObj err)).
Proof.
  rewrite handle_paths. unfold DeepCopyObject. split; [|split].
  - intros obj err Hdec. rewrite Hdec. split; [done | no_mutate].
  - intros Hraw.
    rewrite bool_decide_eq_false_2 by (rewrite Hraw; intros Hlen; by apply Hlen).
    cbn. intros Hin.
    repeat case_match; cbn in Hin;
      repeat (apply elem_of_cons in Hin as [Hin|Hin]; [discriminate|]);
      by apply elem_of_nil in Hin.
  - intros oldObj err Hraw Hold.
    rewrite bool_decide_eq_true_2 by (by destruct (Raw (OldObject req))).
    rewrite Hold. split; [|split].
    + by repeat case_match.
    + repeat case_match; no_mutate.
    + intros obj accessor Hdec Hacc. by rewrite Hdec, Hacc.
Qed.

(** *** Resolution *)

Lemma isInternalOf_spec gvk kind :
  isInternalOf gvk kind = true <-> gvk = internalOf kind.
Proof.
  unfold isInternalOf, internalOf.
  rewrite !andb_true_iff, !bool_decide_eq_true. destruct gvk as [g v k]; cbn.
  split; [intros [[-> ->] ->]; reflexivity | intros [= -> -> ->]; auto].
Qed.

(** The keys of a map are distinct, so the fallback loop can stop at one entry
    only, whatever the order of the [range]. *)
Lemma rangeFind_internal {V : Type} ro (registry : gmap GroupVersionKind V) kind :
  rangeFind (fun gvk => isInternalOf gvk kind) (range ro registry)
  = registry !! internalOf kind.
Proof.
  unfold rangeFind.
  destruct (List.find _ _) as [[k v]|] eqn:Hfind; cbn.
  - apply List.find_some in Hfind as [Hin Hk]. cbn in Hk.
    apply isInternalOf_spec in Hk as ->.
    apply list_elem_of_In in Hin. rewrite range_perm in Hin.
    by apply elem_of_map_to_list in Hin.
  - destruct (registry !! internalOf kind) as [v|] eqn:Hv; [|done].
    apply elem_of_map_to_list in Hv. rewrite <- (range_perm ro) in Hv.
    apply list_elem_of_In in Hv.
    apply (List.find_none _ _ Hfind) in Hv. cbn in Hv.
    by rewrite (proj2 (isInternalOf_spec _ _) eq_refl) in Hv.
Qed.

Lemma resolve_lookup {V : Type} ro (registry : gmap GroupVersionKind V) kind :
  resolve ro registry kind
  = match registry !! kind with
    | Some v => Some v
    | None => registry !! internalOf kind
    end.
Proof. unfold resolve. by rewrite rangeFind_internal. Qed.

(** C5: a request whose identifier is in neither registry, while its group and
    kind are registered under the internal version, is handled with the
    prototype and the mutator of that entry, in every order of the [range];
    the response is not the one for an unexpected kind. *)
Theorem Handle_falls_back_to_internal ro h ctx req t m :
  typesMap h !! ReqKind req = None ->
  mutatorMap h !! ReqKind req = None ->
  typesMap h !! internalOf (ReqKind req) = Some t ->
  mutatorMap h !! internalOf (ReqKind req) = Some m ->
  Handle ro h ctx req = handle ctx req m t (decoder h) (predicates h)
  /\ forall code kind, (Handle ro h ctx req).2 ≠ Deny code (UnexpectedRequestKind kind).
Proof.
  intros Ht Hm Hti Hmi.
  assert (Handle ro h ctx req = handle ctx req m t (decoder h) (predicates h)) as ->.
  { unfold Handle. by rewrite !resolve_lookup, Ht, Hm, Hti, Hmi. }
  split; [reflexivity|]. intros code kind.
  rewrite handle_paths. unfold PatchResponseFromRaw.
  repeat (case_match; try discriminate).
Qed.

(** C6: a request whose identifier is missing from a registry, under its own
    version and under the internal one, is denied with status 400 as an
    unexpected kind, before any call: nothing is decoded, no mutator runs. *)
Theorem Handle_unexpected_kind ro h ctx req :
  (typesMap h !! ReqKind req = None /\ typesMap h !! internalOf (ReqKind req) = None)
  \/ (mutatorMap h !! ReqKind req = None
      /\ mutatorMap h !! internalOf (ReqKind req) = None) ->
  Handle ro h ctx req = ([], Deny 400 (UnexpectedRequestKind (ReqKind req))).
Proof.
  unfold Handle. rewrite !resolve_lookup.
  intros [[-> ->]|[-> ->]]; [reflexivity|]. by repeat case_match.
Qed.

(** *** The builder *)

(** The map [buildTypesMap] returns holds, for each identifier, the last type
    of the slice that resolves to it. *)
Lemma buildTypesLoop_lookup sch types acc tm gvk :
  buildTypesLoop sch types acc = inr tm ->
  tm !! gvk = foldl (declare sch gvk) (acc !! gvk) types.
Proof.
  revert acc. induction types as [|t rest IH]; intros acc; cbn.
  - by intros [= ->].
  - unfold declare at 2. destruct (GVKForObject t sch) as [err|g]; [done|].
    intros Hrest. rewrite (IH _ Hrest). f_equal.
    rewrite lookup_insert. by case_decide; case_bool_decide.
Qed.

Lemma buildTypesMap_lookup sch types tm gvk :
  buildTypesMap sch types = inr tm -> tm !! gvk = declared sch gvk types.
Proof.
  intros Htm. unfold declared.
  by rewrite (buildTypesLoop_lookup _ _ _ _ gvk Htm), lookup_empty.
Qed.

Lemma buildTypesLoop_succeeds sch types acc :
  (forall t, t ∈ types -> exists gvk, GVKForObject t sch = inr gvk) ->
  exists tm, buildTypesLoop sch types acc = inr tm.
Proof.
  revert acc. induction types as [|t rest IH]; intros acc Hall; cbn; [eauto|].
  destruct (Hall t) as [g ->]; [by left|].
  apply IH. intros t' Ht'. apply Hall. by right.
Qed.

(** The inner loop of [Build] over entries with distinct keys: what the
    entries hold comes first, what the handler held stays elsewhere. *)
Lemma foldl_register mutator h (entries : list (GroupVersionKind * Object)) gvk :
  NoDup entries.*1 ->
  typesMap (foldl (register mutator) h entries) !! gvk
  = match (list_to_map entries : gmap _ _) !! gvk with
    | Some obj => Some obj
    | None => typesMap h !! gvk
    end
  /\ mutatorMap (foldl (register mutator) h entries) !! gvk
     = match (list_to_map entries : gmap _ _) !! gvk with
       | Some _ => Some mutator
       | None => mutatorMap h !! gvk
       end.
Proof.
  revert h. induction entries as [|[k obj] rest IH]; intros h Hnd; cbn.
  - by rewrite lookup_empty.
  - apply NoDup_cons in Hnd as [Hk Hnd].
    destruct (IH (register mutator h (k, obj)) Hnd) as [-> ->]. cbn.
    rewrite !lookup_insert. case_decide as Hkg; [|done].
    subst k. by rewrite (not_elem_of_list_to_map_1 rest gvk Hk).
Qed.

Lemma range_register ro mutator h (tm : gmap GroupVersionKind Object) gvk :
  typesMap (foldl (register mutator) h (range ro tm)) !! gvk
  = match tm !! gvk with Some obj => Some obj | None => typesMap h !! gvk end
  /\ mutatorMap (foldl (register mutator) h (range ro tm)) !! gvk
     = match tm !! gvk with Some _ => Some mutator | None => mutatorMap h !! gvk end.
Proof.
  assert (NoDup (range ro tm).*1) as Hnd.
  { rewrite range_perm. apply NoDup_fst_map_to_list. }
  assert ((list_to_map (range ro tm) : gmap _ _) = tm) as Htm.
  { rewrite <- (list_to_map_to_list tm) at 2.
    apply list_to_map_proper; [done | apply range_perm]. }
  pose proof (foldl_register mutator h (range ro tm) gvk Hnd) as Hfold.
  by rewrite Htm in Hfold.
Qed.

(** The outer loop of [Build], seen from one identifier. *)
Lemma buildLoop_lookup ro sch entries h h' gvk found :
  buildLoop ro sch entries h = inr h' ->
  mutatorMap h !! gvk = fst <$> found ->
  typesMap h !! gvk = snd <$> found ->
  mutatorMap h' !! gvk = fst <$> foldl (visit sch gvk) found entries
  /\ typesMap h' !! gvk = snd <$> foldl (visit sch gvk) found entries.
Proof.
  revert h found. induction entries as [|[m ts] rest IH]; intros h found; cbn.
  - by intros [= ->].
  - destruct (buildTypesMap sch ts) as [err|tm] eqn:Htm; [done|].
    intros Hrest Hm Ht. apply (IH _ _ Hrest).
    + rewrite (proj2 (range_register ro m h tm gvk)).
      rewrite (buildTypesMap_lookup _ _ _ gvk Htm). unfold visit. cbn [fst snd].
      by destruct (declared sch gvk ts).
    + rewrite (proj1 (range_register ro m h tm gvk)).
      rewrite (buildTypesMap_lookup _ _ _ gvk Htm). unfold visit. cbn [fst snd].
      by destruct (declared sch gvk ts).
Qed.

Lemma buildLoop_succeeds ro sch entries h :
  (forall m ts t, (m, ts) ∈ entries -> t ∈ ts ->
                  exists gvk, GVKForObject t sch = inr gvk) ->
  exists h', buildLoop ro sch entries h = inr h'.
Proof.
  revert h. induction entries as [|[m ts] rest IH]; intros h Hall; cbn; [eauto|].
  destruct (buildTypesLoop_succeeds sch ts ∅) as [tm Htm].
  { intros t Ht. apply (Hall m ts); [by left | done]. }
  unfold buildTypesMap. rewrite Htm. apply IH.
  intros m' ts' t Hin Ht. apply (Hall m' ts'); [by right | done].
Qed.

(** What [Build] registers for an identifier: the mutator visited last among
    those that declare it, and that mutator's last prototype for it. *)
Lemma Build_lookup ro b h gvk :
  Build ro b = inr h ->
  mutatorMap h !! gvk = fst <$> winner (b_scheme b) gvk (range ro (b_mutatorMap b))
  /\ typesMap h !! gvk = snd <$> winner (b_scheme b) gvk (range ro (b_mutatorMap b)).
Proof.
  intros Hb. by apply (buildLoop_lookup _ _ _ _ _ _ None Hb).
Qed.

(** Entries that do not declare the identifier leave what was found. *)
Lemma visit_none sch gvk found (entries : list (Mutator * list Object)) :
  (forall e, e ∈ entries -> declared sch gvk e.2 = None) ->
  foldl (visit sch gvk) found entries = found.
Proof.
  revert found. induction entries as [|e rest IH]; intros found Hall; cbn [foldl]; [done|].
  unfold visit at 2. rewrite (Hall e) by (by left).
  apply IH. intros e' He'. apply Hall. by right.
Qed.

Lemma winner_last sch gvk pre m ts post t :
  declared sch gvk ts = Some t ->
  (forall e, e ∈ post -> declared sch gvk e.2 = None) ->
  winner sch gvk (pre ++ (m, ts) :: post) = Some (m, t).
Proof.
  intros Ht Hpost. unfold winner. rewrite foldl_app. cbn [foldl].
  rewrite (visit_none _ _ _ _ Hpost). unfold visit. cbn [fst snd]. by rewrite Ht.
Qed.

(** Within the types of one mutator, a later declaration of an identifier
    replaces an earlier one. *)
Lemma declared_app sch gvk types1 types2 :
  declared sch gvk (types1 ++ types2)
  = match declared sch gvk types2 with
    | Some t => Some t
    | None => declared sch gvk types1
    end.
Proof.
  unfold declared. rewrite foldl_app. generalize (foldl (declare sch gvk) None types1).
  induction types2 as [|t rest IH] using rev_ind; intros found; cbn.
  - done.
  - rewrite !foldl_app. cbn. unfold declare at 1 3.
    destruct (GVKForObject t sch) as [err|g]; [apply IH|].
    case_bool_decide; [done | apply IH].
Qed.

(** C8: after a successful [Build], the mutator registry and the type registry
    have entries for the same identifiers; in particular every identifier with
    a mutator has a prototype. *)
Theorem Build_registries_agree ro b h :
  Build ro b = inr h ->
  forall gvk, is_Some (mutatorMap h !! gvk) <-> is_Some (typesMap h !! gvk).
Proof.
  intros Hb gvk. destruct (Build_lookup ro b h gvk Hb) as [-> ->].
  by rewrite !fmap_is_Some.
Qed.

(** C9, amended: declaring an identifier more than once is no error: [Build]
    succeeds whenever every declared type resolves.  The registries then hold,
    for the identifier, the mutator that the [range] over the builder's map
    visits last among those declaring it, and the last prototype declared for
    it under that mutator.  When one mutator only declares the identifier,
    this is its last declaration, in every order of the [range]. *)
Theorem Build_last_visited_wins ro b :
  ((forall m ts t, b_mutatorMap b !! m = Some ts -> t ∈ ts ->
                   exists gvk, GVKForObject t (b_scheme b) = inr gvk) ->
   exists h, Build ro b = inr h)
  /\ (forall h gvk pre m ts post t,
        Build ro b = inr h ->
        range ro (b_mutatorMap b) = pre ++ (m, ts) :: post ->
        declared (b_scheme b) gvk ts = Some t ->
        (forall e, e ∈ post -> declared (b_scheme b) gvk e.2 = None) ->
        mutatorMap h !! gvk = Some m /\ typesMap h !! gvk = Some t)
  /\ (forall h gvk m ts t,
        Build ro b = inr h ->
        b_mutatorMap b !! m = Some ts ->
        declared (b_scheme b) gvk ts = Some t ->
        (forall m' ts', m' ≠ m -> b_mutatorMap b !! m' = Some ts' ->
                        declared (b_scheme b) gvk ts' = None) ->
        mutatorMap h !! gvk = Some m /\ typesMap h !! gvk = Some t).
Proof.
  assert (forall h gvk pre m ts post t,
        Build ro b = inr h ->
        range ro (b_mutatorMap b) = pre ++ (m, ts) :: post ->
        declared (b_scheme b) gvk ts = Some t ->
        (forall e, e ∈ post -> declared (b_scheme b) gvk e.2 = None) ->
        mutatorMap h !! gvk = Some m /\ typesMap h !! gvk = Some t) as Hlast.
  { intros h gvk pre m ts post t Hb Hsplit Ht Hpost.
    destruct (Build_lookup ro b h gvk Hb) as [-> ->].
    by rewrite Hsplit, (winner_last _ _ _ _ _ _ _ Ht Hpost). }
  split; [|split; [exact Hlast|]].
  - intros Hall. apply buildLoop_succeeds.
    intros m ts t Hin Ht. apply (Hall m ts); [|done].
    rewrite range_perm in Hin. by apply elem_of_map_to_list in Hin.
  - intros h gvk m ts t Hb Hm Ht Hothers.
    assert ((m, ts) ∈ range ro (b_mutatorMap b)) as Hin.
    { rewrite range_perm. by apply elem_of_map_to_list. }
    apply list_elem_of_split in Hin as (pre & post & Hsplit).
    apply (Hlast h gvk pre m ts post t Hb Hsplit Ht).
    intros [m' ts'] He. cbn.
    assert (NoDup (range ro (b_mutatorMap b)).*1) as Hnd.
    { rewrite range_perm. apply NoDup_fst_map_to_list. }
    assert ((m', ts') ∈ range ro (b_mutatorMap b)) as Hin'.
    { rewrite Hsplit. apply elem_of_app. right. by right. }
    rewrite range_perm in Hin'. apply elem_of_map_to_list in Hin'.
    apply (Hothers m' ts'); [|done]. intros ->.
    rewrite Hsplit, fmap_app, fmap_cons in Hnd. cbn in Hnd.
    apply NoDup_app in Hnd as (_ & _ & Hnd). apply NoDup_cons in Hnd as [Hnd _].
    apply Hnd. apply list_elem_of_fmap. by exists (m, ts').
Qed.

End Properties.

(** ** The handler at work in the world of widgets *)

Import Widgets.

(** X12: registering two different mutators is the same builder in either order:
    [Build] cannot tell which call came last. *)
Lemma WithMutator_comm `{W : World} m1 ts1 m2 ts2 (b : HandlerBuilder) :
  m1 ≠ m2 ->
  WithMutator m2 ts2 (WithMutator m1 ts1 b) = WithMutator m1 ts1 (WithMutator m2 ts2 b).
Proof.
  intros Hne. unfold WithMutator, typesOf. cbn.
  rewrite !lookup_insert_ne by done.
  f_equal. by apply insert_insert_ne.
Qed.

(** The example of the specification: a mutator that doubles the size, a
    request with size 1 and no old object.  The response is a patch, and the
    patch turns the document of size 1 into the document of size 2. *)
Example doubler_patches :
  exists patches,
    handle tt (request widgetV1 [x01] []) (custom Doubler) (Widget "v1" 0) tt []
    = ([DecodeObject; GetAccessor; EvalPredicates; MutateCall (custom Doubler);
        MarshalCall; MarshalCall; CreatePatchCall], AllowPatch patches)
    /\ applyPatch patches [x01] = [x02].
Proof. eexists. split; reflexivity. Qed.

(** A validator that resets the size while it validates: the change is
    dropped, the response is the plain [Allow]. *)
Example meddler_is_silenced :
  handle tt (request widgetV1 [x07] []) (hybridValidator Meddler) (Widget "v1" 0) tt []
  = ([DecodeObject; GetAccessor; EvalPredicates; MutateCall (validationWrapper Meddler)],
     Allow "").
Proof. reflexivity. Qed.

(** A mutator registered as a mutator whose type has a [Validate] method as
    well: the assertion [m.(Validator)] holds for it, and its change is
    dropped like a validator's. *)
Example auditor_is_silenced :
  assertValidator (custom Auditor) = true
  /\ mutatesTo tt (request widgetV1 [x07] []) (custom Auditor) (Widget "v1" 0) tt []
       (Widget "v1" 7) (Widget "v1" 14)
  /\ (handle tt (request widgetV1 [x07] []) (custom Auditor) (Widget "v1" 0) tt []).2
     = Allow "".
Proof.
  split; [reflexivity|]. split; [|reflexivity].
  split; [reflexivity|]. split; [by eexists|]. split; [reflexivity|].
  exists None. split; reflexivity.
Qed.

(** C2, as stated, fails: the request gets as far as the mutator, the mutator
    is no validator and the doubled widget differs from the decoded one, yet
    the response is no patch, and no plain [Allow] either: size 400 does not
    serialize, the request is denied with status 500. *)
Lemma changed_but_not_serialized :
  let req := request widgetV1 [xc8] [] in
  let r := (handle tt req (custom Doubler) (Widget "v1" 0) tt []).2 in
  mutatesTo tt req (custom Doubler) (Widget "v1" 0) tt [] (Widget "v1" 200) (Widget "v1" 400)
  /\ assertValidator (custom Doubler) = false
  /\ SemanticDeepEqual (Widget "v1" 200) (Widget "v1" 400) = false
  /\ r = Deny 500 (ErrorOf "unsupported value")
  /\ ~ (isAllowPatch r = true <->
        assertValidator (custom Doubler) = false
        /\ SemanticDeepEqual (Widget "v1" 200) (Widget "v1" 400) = false)
  /\ isAllow r = false.
Proof.
  cbn zeta. split; [|split; [reflexivity|split; [reflexivity|split; [reflexivity|split]]]].
  - split; [reflexivity|]. split; [by eexists|]. split; [reflexivity|].
    exists None. split; reflexivity.
  - intros [_ Hpatch]. specialize (Hpatch (conj eq_refl eq_refl)). discriminate Hpatch.
  - reflexivity.
Qed.

(** C3, as stated, fails: a mutator that is no validator changes the size of
    the decoded widget from 255 to 510, and the response is not a patch but a
    denial with status 500. *)
Lemma changed_but_denied :
  let req := request widgetV1 [xff] [x01] in
  let r := (handle tt req (custom Doubler) (Widget "v1" 0) tt []).2 in
  mutatesTo tt req (custom Doubler) (Widget "v1" 0) tt [] (Widget "v1" 255) (Widget "v1" 510)
  /\ assertValidator (custom Doubler) = false
  /\ Widget "v1" 255 ≠ Widget "v1" 510
  /\ SemanticDeepEqual (Widget "v1" 255) (Widget "v1" 510) = false
  /\ r = Deny 500 (ErrorOf "unsupported value")
  /\ forall patches, r ≠ AllowPatch patches.
Proof.
  cbn zeta.
  split; [|split; [reflexivity|split; [discriminate|split; [reflexivity|split; [reflexivity|discriminate]]]]].
  split; [reflexivity|]. split; [by eexists|]. split; [reflexivity|].
  exists (Some (Widget "v1" 1)). split; [|reflexivity].
  unfold oldDecodes. rewrite bool_decide_eq_true_2 by (cbn; lia).
  by eexists.
Qed.

(** C4, as stated, fails: the new widget decodes, the predicate of the chain
    is false for it, and the response is not [Allow]: the old object is
    decoded before the predicates are asked, and it is malformed. *)
Lemma predicate_false_but_denied :
  let req := request widgetV1 [x00] [x01; x02] in
  let r := (handle tt req (custom Doubler) (Widget "v1" 0) tt [isPositive]).2 in
  Decode tt (Raw (ReqObject req)) (DeepCopyObject (Widget "v1" 0)) = (Widget "v1" 0, None)
  /\ isPositive ∈ [isPositive]
  /\ isPositive (Widget "v1" 0) = false
  /\ r = Deny 400 (CouldNotDecodeOldObject (Widget "v1" 0) "malformed document")
  /\ isAllow r = false.
Proof.
  cbn zeta. split; [reflexivity|]. split; [by left|]. by repeat split.
Qed.

(** C9, as stated, fails: [Doubler] is registered for the widget first, [Idle]
    for the same identifier last; with the entries of the builder's map
    visited in the order they are listed, the registries hold the mutator and
    the prototype of the first declaration. *)
Lemma first_declaration_wins :
  let b := WithMutator (custom Idle) [Widget "v1" 0]
             (WithMutator (custom Doubler) [Widget "v1" 7] (NewBuilder tt)) in
  range asListed (b_mutatorMap b)
  = [(custom Idle, [Widget "v1" 0]); (custom Doubler, [Widget "v1" 7])]
  /\ exists h, Build asListed b = inr h
            /\ mutatorMap h !! widgetV1 = Some (custom Doubler)
            /\ typesMap h !! widgetV1 = Some (Widget "v1" 7).
Proof.
  cbn zeta. split; [vm_compute; reflexivity|].
  eexists. split; [vm_compute; reflexivity|].
  split; vm_compute; reflexivity.
Qed.

(** *** The theorems at concrete requests *)

(** The doubler gets a widget of size 1 and leaves it with size 2. *)
Lemma doubler_mutates :
  mutatesTo tt (request widgetV1 [x01] []) (custom Doubler) (Widget "v1" 0) tt []
    (Widget "v1" 1) (Widget "v1" 2).
Proof.
  split; [reflexivity|]. split; [by eexists|]. split; [reflexivity|].
  exists None. split; reflexivity.
Defined.

(** [handle_accessor_error] at a kind without object metadata. *)
Lemma handle_accessor_error_witness :
  handle tt (request (mkGVK "apps" "v1" "Bare") [x05] []) (custom Idle) (Bare 0) tt []
  = ([DecodeObject; GetAccessor; LogError],
     Deny 400 (CouldNotGetAccessor (Bare 5)
                 "object does not implement the Object interfaces")).
Proof.
  apply (handle_accessor_error (W := world)); reflexivity.
Defined.

(** [patch_iff_changed_and_serialized] at the doubled widget. *)
Lemma patch_iff_changed_and_serialized_witness :
  isAllowPatch
    (handle tt (request widgetV1 [x01] []) (custom Doubler) (Widget "v1" 0) tt []).2 = true.
Proof.
  apply (proj1 (patch_iff_changed_and_serialized (W := world) _ _ _ _ _ _ _ _
                  doubler_mutates)).
  split; [reflexivity|]. split; [reflexivity|].
  exists [x01], [x02], [x02]. repeat split; reflexivity.
Defined.

(** The patches of [Widgets] transform the original into the current
    document. *)
Lemma Widgets_transforms : transforms applyPatch.
Proof. intros original current patches [= <-]. reflexivity. Defined.

(** [patch_round_trip] at the doubled widget, with the patches of [Widgets]. *)
Lemma patch_round_trip_witness :
  (handle tt (request widgetV1 [x01] []) (custom Doubler) (Widget "v1" 0) tt []).2
  = AllowPatch [x02]
  /\ exists before after,
      Marshal (Widget "v1" 1) = inr before /\ Marshal (Widget "v1" 2) = inr after
      /\ CreatePatch before after = inr [x02]
      /\ applyPatch [x02] before = after.
Proof.
  destruct (patch_round_trip (W := world) tt (request widgetV1 [x01] []) doubler
              (Widget "v1" 0) tt [] (Widget "v1" 1) (Widget "v1" 2)
              doubler_mutates eq_refl eq_refl)
    as (Hpatch & Hround & _).
  assert ((handle tt (request widgetV1 [x01] []) (custom Doubler) (Widget "v1" 0) tt []).2
          = AllowPatch [x02]) as Hr.
  { apply (Hpatch [x01] [x02] [x02]); reflexivity. }
  split; [exact Hr|].
  destruct (Hround [x02] Hr) as (before & after & Hb & Ha & Hp & Happly).
  exists before, after. split; [exact Hb|]. split; [exact Ha|]. split; [exact Hp|].
  apply (Happly applyPatch Widgets_transforms).
Defined.

(** [predicate_false_allows] at a widget of size 0 and the predicate that wants
    a positive size. *)
Lemma predicate_false_allows_witness :
  neverMutates
    (handle tt (request widgetV1 [x00] []) (custom Doubler) (Widget "v1" 0) tt [isPositive]).1
  /\ (handle tt (request widgetV1 [x00] []) (custom Doubler) (Widget "v1" 0) tt [isPositive]).2
     = Allow "".
Proof.
  destruct (predicate_false_allows (W := world) tt (request widgetV1 [x00] []) doubler
              (Widget "v1" 0) tt [isPositive] (Widget "v1" 0) eq_refl)
    as [Hnever Hallow].
  { exists isPositive. split; [by left | reflexivity]. }
  split; [exact Hnever|]. apply Hallow.
  - by eexists.
  - exists None. reflexivity.
Defined.

(** [Handle_falls_back_to_internal] at a request for version v1. *)
Lemma Handle_falls_back_to_internal_witness :
  Handle asListed onlyInternal tt (request widgetV1 [x01] [])
  = handle tt (request widgetV1 [x01] []) (custom Doubler) (Widget "__internal" 0) tt [].
Proof.
  apply (Handle_falls_back_to_internal (W := world) asListed onlyInternal);
    vm_compute; reflexivity.
Defined.

(** [Handle_unexpected_kind] at a kind nobody registered. *)
Lemma Handle_unexpected_kind_witness :
  Handle backwards onlyInternal tt (request (mkGVK "apps" "v1" "Gadget") [x01] [])
  = ([], Deny 400 (UnexpectedRequestKind (mkGVK "apps" "v1" "Gadget"))).
Proof.
  apply (Handle_unexpected_kind (W := world) backwards onlyInternal).
  left. split; vm_compute; reflexivity.
Defined.

(** [decode_errors_deny] at an empty new document, at a request without old
    object and at a malformed old document. *)
Lemma decode_errors_deny_witness :
  (handle tt (request widgetV1 [] []) (custom Doubler) (Widget "v1" 0) tt []).2
  = Deny 400 (CouldNotDecodeRequest (request widgetV1 [] []) "malformed document")
  /\ (DecodeOldObject
      ∉ (handle tt (request widgetV1 [x01] []) (custom Doubler) (Widget "v1" 0) tt []).1)
  /\ (handle tt (request widgetV1 [x01] [x01; x02]) (custom Doubler) (Widget "v1" 0) tt []).2
     = Deny 400 (CouldNotDecodeOldObject (Widget "v1" 0) "malformed document").
Proof.
  split; [|split].
  - eapply (proj1 (decode_errors_deny (W := world) _ _ _ _ _ _)). reflexivity.
  - apply (proj1 (proj2 (decode_errors_deny (W := world) _ _ _ _ _ _))). reflexivity.
  - eapply (proj2 (proj2 (decode_errors_deny (W := world) _ _ _ _ _ _))).
    + discriminate.
    + reflexivity.
    + reflexivity.
    + reflexivity.
Defined.

(** [Build_registries_agree] at a builder with two mutators. *)
Lemma Build_registries_agree_witness :
  exists h, Build backwards twiceDeclared = inr h
            /\ forall gvk, is_Some (mutatorMap h !! gvk) <-> is_Some (typesMap h !! gvk).
Proof.
  eexists. split; [vm_compute; reflexivity|].
  apply (Build_registries_agree (W := world) backwards twiceDeclared).
  vm_compute. reflexivity.
Defined.

(** [Build_last_visited_wins] at a builder where one mutator declares the
    widget twice, and at one where two mutators declare it. *)
Lemma Build_last_visited_wins_witness :
  (exists h, Build asListed twiceDeclared = inr h
             /\ mutatorMap h !! widgetV1 = Some (custom Idle)
             /\ typesMap h !! widgetV1 = Some (Widget "v1" 4))
  /\ (exists h, Build backwards contested = inr h
                /\ mutatorMap h !! widgetV1 = Some (custom Idle)
                /\ typesMap h !! widgetV1 = Some (Widget "v1" 0)).
Proof.
  split.
  - destruct (Build_last_visited_wins (W := world) asListed twiceDeclared)
      as (Hok & _ & Hone).
    destruct Hok as [h Hh].
    { intros m ts t Hm Ht.
      apply elem_of_map_to_list in Hm. vm_compute in Hm.
      apply elem_of_cons in Hm as [[= -> ->]|Hm].
      - apply elem_of_cons in Ht as [->|Ht]; [by eexists|].
        apply list_elem_of_singleton in Ht as ->. by eexists.
      - apply list_elem_of_singleton in Hm as [= -> ->].
        apply list_elem_of_singleton in Ht as ->. by eexists. }
    exists h. split; [exact Hh|].
    eapply (Hone h widgetV1 _ _ _ Hh).
    + vm_compute. reflexivity.
    + vm_compute. reflexivity.
    + intros m' ts' Hne Hm'.
      apply elem_of_map_to_list in Hm'. vm_compute in Hm'.
      apply elem_of_cons in Hm' as [[= -> ->]|Hm'].
      * by destruct Hne.
      * apply list_elem_of_singleton in Hm' as [= -> ->]. reflexivity.
  - destruct (Build_last_visited_wins (W := world) backwards contested)
      as (_ & Hlast & _).
    eexists. split; [vm_compute; reflexivity|].
    eapply (Hlast _ widgetV1 [(doubler, [Widget "v1" 7])] _ _ []).
    + vm_compute. reflexivity.
    + vm_compute. reflexivity.
    + vm_compute. reflexivity.
    + intros e He. by apply elem_of_nil in He.
Defined.

(** ** Further properties of the handler *)

Section Requests.

Context `{W : World}.

(** X1: the response and the calls of [Handle] do not depend on the order in which
    the two fallback loops visit the registries. *)
Theorem Handle_any_order ro ro' h ctx req :
  Handle ro h ctx req = Handle ro' h ctx req.
Proof. unfold Handle. by rewrite !resolve_lookup. Qed.

(** X2: an error of the mutator, and so of a wrapped validator, denies the request
    with status 400 and that very error; nothing is serialized. *)
Theorem mutate_error_denies ctx req m t decoder predicates obj oldObj newObj err :
  Decode decoder (Raw (ReqObject req)) (DeepCopyObject t) = (obj, None) ->
  (exists accessor, Accessor obj = inr accessor) ->
  oldDecodes decoder req t oldObj ->
  EvalGeneric obj predicates = true ->
  Mutate m ctx (DeepCopyObject obj) oldObj = (newObj, Some err) ->
  (handle ctx req m t decoder predicates).2 = Deny 400 (ErrorOf err)
  /\ (MarshalCall ∉ (handle ctx req m t decoder predicates).1)
  /\ (CreatePatchCall ∉ (handle ctx req m t decoder predicates).1).
Proof.
  intros Hdec [accessor Hacc] Hold Hpred Hmut.
  rewrite handle_paths. unfold oldDecodes, DeepCopyObject in *.
  rewrite Hdec, Hacc.
  destruct (bool_decide (length (Raw (OldObject req)) ≠ 0%nat)).
  - destruct Hold as (o & Ho & ->). rewrite Ho. cbn. rewrite Hpred, Hmut. cbn.
    split; [done|]. split; intros Hin;
      repeat (apply elem_of_cons in Hin as [Hin|Hin]; [discriminate|]);
      by apply elem_of_nil in Hin.
  - subst oldObj. cbn. rewrite Hpred, Hmut. cbn.
    split; [done|]. split; intros Hin;
      repeat (apply elem_of_cons in Hin as [Hin|Hin]; [discriminate|]);
      by apply elem_of_nil in Hin.
Qed.

(** X3: the responses of [Handle]: the plain [Allow] with an empty reason, a
    patch, a denial with status 400, or a denial with status 500 that carries
    the error of the serialization or of the patch library.  No other status
    is ever sent, and a mutator on which the assertion [m.(Validator)] holds
    is answered with the plain [Allow] or with status 400 only. *)
Theorem Handle_responses ro h ctx req :
  ((Handle ro h ctx req).2 = Allow ""
   \/ (exists patches, (Handle ro h ctx req).2 = AllowPatch patches)
   \/ (exists reason, (Handle ro h ctx req).2 = Deny 400 reason)
   \/ (exists err, (Handle ro h ctx req).2 = Deny 500 (ErrorOf err)))
  /\ (forall m, resolve ro (mutatorMap h) (ReqKind req) = Some m ->
                assertValidator m = true ->
                (Handle ro h ctx req).2 = Allow ""
                \/ exists reason, (Handle ro h ctx req).2 = Deny 400 reason).
Proof.
  split.
  - unfold Handle.
    destruct (resolve ro (typesMap h) (ReqKind req)) as [t|]; [|cbn; eauto 6].
    destruct (resolve ro (mutatorMap h) (ReqKind req)) as [m|]; [|cbn; eauto 6].
    rewrite handle_paths. unfold PatchResponseFromRaw.
    repeat (case_match; cbn; eauto 6).
  - intros m Hm Hv. unfold Handle. rewrite Hm.
    destruct (resolve ro (typesMap h) (ReqKind req)) as [t|]; [|cbn; eauto].
    rewrite handle_paths, Hv. cbn.
    repeat (case_match; cbn; eauto).
Qed.

(** X4: the calls of [handle], log lines aside, are an initial segment of one
    sequence: the new object is decoded, the accessor is asked, the old object
    is decoded (only when its raw bytes are not empty), the predicates are
    evaluated, [Mutate] is called on the mutator given, the two objects are
    serialized and the patch is computed.  So [Mutate] is called at most
    once and after the predicates, and nothing is serialized before it; and
    the objects are serialized only when the assertion [m.(Validator)]
    fails. *)
Theorem handle_calls ctx req m t decoder predicates :
  withoutLogs (handle ctx req m t decoder predicates).1
    `prefix_of` callSequence m (bool_decide (length (Raw (OldObject req)) ≠ 0%nat))
  /\ (MarshalCall ∈ (handle ctx req m t decoder predicates).1 ->
      assertValidator m = false).
Proof.
  rewrite handle_paths. unfold withoutLogs, callSequence.
  destruct (assertValidator m) eqn:Hv; cbn [negb andb];
    repeat case_match; simplify_eq; cbn;
    (split;
     [ by eexists
     | try done; intros Hin; exfalso;
       repeat (apply elem_of_cons in Hin as [Hin|Hin]; [discriminate Hin|]);
       by apply elem_of_nil in Hin ]).
Qed.

End Requests.

(** ** Further properties of the builder *)

Section Builder.

Context `{W : World}.

Lemma declare_fold_Some sch gvk found types t :
  foldl (declare sch gvk) found types = Some t ->
  (t ∈ types /\ GVKForObject t sch = inr gvk) \/ found = Some t.
Proof.
  revert found. induction types as [|t0 rest IH]; intros found; cbn; [auto|].
  intros Hfold. destruct (IH _ Hfold) as [[Hin Hg]|Hfound].
  - left. split; [by right | done].
  - unfold declare in Hfound. destruct (GVKForObject t0 sch) as [err|g] eqn:Hg0; [auto|].
    case_bool_decide; [|auto]. injection Hfound as ->. subst g.
    left. split; [by left | done].
Qed.

Lemma declare_fold_is_Some sch gvk found types :
  is_Some found \/ declares sch gvk types ->
  is_Some (foldl (declare sch gvk) found types).
Proof.
  revert found. induction types as [|t0 rest IH]; intros found; cbn.
  - intros [Hfound|(t & Hin & _)]; [done | by apply elem_of_nil in Hin].
  - intros [Hfound|(t & Hin & Hg)]; apply IH.
    + left. unfold declare. destruct (GVKForObject t0 sch); [done|]. by case_bool_decide.
    + apply elem_of_cons in Hin as [->|Hin].
      * left. unfold declare. rewrite Hg. by rewrite bool_decide_eq_true_2.
      * right. by exists t.
Qed.

Lemma declared_Some sch gvk types t :
  declared sch gvk types = Some t -> t ∈ types /\ GVKForObject t sch = inr gvk.
Proof.
  intros Hd. by destruct (declare_fold_Some _ _ _ _ _ Hd) as [?|?].
Qed.

Lemma declared_is_Some sch gvk types :
  is_Some (declared sch gvk types) <-> declares sch gvk types.
Proof.
  split.
  - intros [t Ht]. exists t. by apply declared_Some.
  - intros Hd. apply declare_fold_is_Some. by right.
Qed.

Lemma declared_None sch gvk types :
  declared sch gvk types = None <-> ~ declares sch gvk types.
Proof.
  rewrite <- declared_is_Some, <- eq_None_not_Some. done.
Qed.

(** X5: the map of [buildTypesMap] has a key for exactly the identifiers the
    types of the slice resolve to, and every prototype in it is a type of the
    slice that resolves to its key. *)
Theorem buildTypesMap_entries sch types tm :
  buildTypesMap sch types = inr tm ->
  (forall gvk t, tm !! gvk = Some t -> t ∈ types /\ GVKForObject t sch = inr gvk)
  /\ (forall gvk, is_Some (tm !! gvk) <-> declares sch gvk types).
Proof.
  intros Htm. split.
  - intros gvk t Ht. rewrite (buildTypesMap_lookup _ _ _ gvk Htm) in Ht.
    by apply declared_Some.
  - intros gvk. rewrite (buildTypesMap_lookup _ _ _ gvk Htm).
    apply declared_is_Some.
Qed.

Lemma buildTypesLoop_first_error sch pre t post err acc :
  (forall t', t' ∈ pre -> exists gvk, GVKForObject t' sch = inr gvk) ->
  GVKForObject t sch = inl err ->
  buildTypesLoop sch (pre ++ t :: post) acc = inl (CouldNotGetGVK t err).
Proof.
  revert acc. induction pre as [|t0 pre IH]; intros acc Hpre Ht; cbn.
  - by rewrite Ht.
  - destruct (Hpre t0) as [g ->]; [by left|].
    apply IH; [|done]. intros t' Ht'. apply Hpre. by right.
Qed.

Lemma buildTypesLoop_error sch types acc e :
  buildTypesLoop sch types acc = inl e ->
  exists pre t post err,
    types = pre ++ t :: post
    /\ (forall t', t' ∈ pre -> exists gvk, GVKForObject t' sch = inr gvk)
    /\ GVKForObject t sch = inl err
    /\ e = CouldNotGetGVK t err.
Proof.
  revert acc. induction types as [|t0 rest IH]; intros acc; cbn; [done|].
  destruct (GVKForObject t0 sch) as [err|g] eqn:Hg.
  - intros [= <-]. exists [], t0, rest, err. repeat split; [|done].
    intros t' Ht'. by apply elem_of_nil in Ht'.
  - intros Hrest. destruct (IH _ Hrest) as (pre & t & post & err & -> & Hpre & Ht & ->).
    exists (t0 :: pre), t, post, err. repeat split; [|done].
    intros t' Ht'. apply elem_of_cons in Ht' as [->|Ht']; [eauto | by apply Hpre].
Qed.

(** X6: [buildTypesMap] fails exactly when a type of the slice does not resolve,
    and its error names the first such type of the slice with the error of
    the scheme. *)
Theorem buildTypesMap_error sch types e :
  buildTypesMap sch types = inl e <->
  exists pre t post err,
    types = pre ++ t :: post
    /\ (forall t', t' ∈ pre -> exists gvk, GVKForObject t' sch = inr gvk)
    /\ GVKForObject t sch = inl err
    /\ e = CouldNotGetGVK t err.
Proof.
  split; [apply buildTypesLoop_error|].
  intros (pre & t & post & err & -> & Hpre & Ht & ->).
  by apply buildTypesLoop_first_error.
Qed.

Lemma buildTypesLoop_resolves sch types acc tm :
  buildTypesLoop sch types acc = inr tm ->
  forall t, t ∈ types -> exists gvk, GVKForObject t sch = inr gvk.
Proof.
  revert acc. induction types as [|t0 rest IH]; intros acc; cbn.
  - intros _ t Ht. by apply elem_of_nil in Ht.
  - destruct (GVKForObject t0 sch) as [err|g] eqn:Hg; [done|].
    intros Hrest t Ht. apply elem_of_cons in Ht as [->|Ht]; [eauto|].
    by apply (IH _ Hrest).
Qed.

Lemma buildLoop_resolves ro sch entries h h' :
  buildLoop ro sch entries h = inr h' ->
  forall m ts t, (m, ts) ∈ entries -> t ∈ ts -> exists gvk, GVKForObject t sch = inr gvk.
Proof.
  revert h. induction entries as [|[m0 ts0] rest IH]; intros h; cbn.
  - intros _ m ts t Hin. by apply elem_of_nil in Hin.
  - destruct (buildTypesMap sch ts0) as [err|tm] eqn:Htm; [done|].
    intros Hrest m ts t Hin Ht. apply elem_of_cons in Hin as [[= -> ->]|Hin].
    + by apply (buildTypesLoop_resolves _ _ _ _ Htm).
    + by apply (IH _ Hrest m ts).
Qed.

Lemma buildLoop_error ro sch entries h t err :
  buildLoop ro sch entries h = inl (CouldNotGetGVK t err) ->
  exists m ts, (m, ts) ∈ entries /\ t ∈ ts /\ GVKForObject t sch = inl err.
Proof.
  revert h. induction entries as [|[m0 ts0] rest IH]; intros h; cbn; [done|].
  destruct (buildTypesMap sch ts0) as [e|tm] eqn:Htm.
  - intros [= ->]. apply buildTypesLoop_error in Htm
      as (pre & t' & post & err' & -> & _ & Ht & [= <- <-]).
    exists m0, (pre ++ t :: post). split; [by left|]. split; [|done].
    apply elem_of_app. right. by left.
  - intros Hrest. destruct (IH _ Hrest) as (m & ts & Hin & Ht & Hg).
    exists m, ts. split; [by right | done].
Qed.

Lemma range_lookup {K V : Type} `{Countable K} ro (m : gmap K V) k v :
  (k, v) ∈ range ro m <-> m !! k = Some v.
Proof. rewrite range_perm. apply elem_of_map_to_list. Qed.

(** X7: [Build] succeeds exactly when every type registered with some mutator
    resolves, whatever the order of the [range]; when it fails, its error
    names a registered type that does not resolve, with the error of the
    scheme. *)
Theorem Build_succeeds_iff ro b :
  ((exists h, Build ro b = inr h) <->
   forall m ts t, b_mutatorMap b !! m = Some ts -> t ∈ ts ->
                  exists gvk, GVKForObject t (b_scheme b) = inr gvk)
  /\ (forall t err,
        Build ro b = inl (CouldNotGetGVK t err) ->
        exists m ts, b_mutatorMap b !! m = Some ts /\ t ∈ ts
                     /\ GVKForObject t (b_scheme b) = inl err).
Proof.
  split; [split|].
  - intros [h Hb] m ts t Hm Ht.
    apply (buildLoop_resolves _ _ _ _ _ Hb m ts); [|done]. by apply range_lookup.
  - intros Hall. apply buildLoop_succeeds.
    intros m ts t Hin Ht. apply (Hall m ts); [|done]. by apply range_lookup in Hin.
  - intros t err Hb. apply buildLoop_error in Hb as (m & ts & Hin & Ht & Hg).
    exists m, ts. split; [by apply range_lookup in Hin | done].
Qed.

Lemma visit_fold_Some sch gvk found (entries : list (Mutator * list Object)) m t :
  foldl (visit sch gvk) found entries = Some (m, t) ->
  (exists ts, (m, ts) ∈ entries /\ declared sch gvk ts = Some t) \/ found = Some (m, t).
Proof.
  revert found. induction entries as [|[m0 ts0] rest IH]; intros found; cbn [foldl]; [auto|].
  intros Hfold. destruct (IH _ Hfold) as [(ts & Hin & Hd)|Hfound].
  - left. exists ts. split; [by right | done].
  - unfold visit in Hfound. cbn [fst snd] in Hfound.
    destruct (declared sch gvk ts0) as [t0|] eqn:Hd; [|auto].
    injection Hfound as -> ->. left. exists ts0. split; [by left | done].
Qed.

Lemma visit_fold_None sch gvk (entries : list (Mutator * list Object)) :
  foldl (visit sch gvk) None entries = None <->
  forall e, e ∈ entries -> declared sch gvk e.2 = None.
Proof.
  split.
  - induction entries as [|e rest IH] using rev_ind; intros Hfold e' He'.
    + by apply elem_of_nil in He'.
    + rewrite foldl_app in Hfold. cbn [foldl] in Hfold. unfold visit at 1 in Hfold.
      destruct (declared sch gvk e.2) eqn:Hd; [done|].
      apply elem_of_app in He' as [He'|He']; [by apply IH|].
      by apply list_elem_of_singleton in He' as ->.
  - apply visit_none.
Qed.

(** Among entries with distinct keys, a mutator that alone declares the
    identifier is the winner wherever it stands. *)
Lemma winner_alone sch gvk (entries : list (Mutator * list Object)) m ts t :
  NoDup entries.*1 ->
  (m, ts) ∈ entries ->
  declared sch gvk ts = Some t ->
  (forall m' ts', (m', ts') ∈ entries -> m' ≠ m -> declared sch gvk ts' = None) ->
  winner sch gvk entries = Some (m, t).
Proof.
  intros Hnd Hin Ht Hothers.
  apply list_elem_of_split in Hin as (pre & post & ->).
  apply winner_last; [done|]. intros [m' ts'] He. cbn.
  apply (Hothers m' ts'); [apply elem_of_app; right; by right|].
  intros ->. rewrite fmap_app, fmap_cons in Hnd. cbn in Hnd.
  apply NoDup_app in Hnd as (_ & _ & Hnd). apply NoDup_cons in Hnd as [Hnd _].
  apply Hnd. apply list_elem_of_fmap. by exists (m, ts').
Qed.

Lemma range_NoDup {K V : Type} `{Countable K} ro (m : gmap K V) :
  NoDup (range ro m).*1.
Proof. rewrite range_perm. apply NoDup_fst_map_to_list. Qed.

Lemma Build_lookup_registered ro b h gvk m :
  Build ro b = inr h ->
  mutatorMap h !! gvk = Some m ->
  exists ts t,
    b_mutatorMap b !! m = Some ts /\ t ∈ ts
    /\ GVKForObject t (b_scheme b) = inr gvk
    /\ typesMap h !! gvk = Some t.
Proof.
  intros Hb Hm. destruct (Build_lookup ro b h gvk Hb) as [Hmm Htm].
  rewrite Hm in Hmm.
  destruct (winner (b_scheme b) gvk (range ro (b_mutatorMap b))) as [[m' t]|] eqn:Hw;
    [|done].
  cbn in Hmm, Htm. injection Hmm as ->.
  apply visit_fold_Some in Hw as [(ts & Hin & Hd)|Hnone]; [|done].
  apply declared_Some in Hd as [Ht Hg].
  exists ts, t. split; [by apply range_lookup in Hin | done].
Qed.

(** X8: every entry of the registries of a built handler comes from one
    registration: the mutator under an identifier was registered with the
    prototype under the same identifier among its types, and that prototype
    resolves to the identifier. *)
Theorem Build_entries_registered ro b h gvk m :
  Build ro b = inr h ->
  mutatorMap h !! gvk = Some m ->
  exists ts t,
    b_mutatorMap b !! m = Some ts /\ t ∈ ts
    /\ GVKForObject t (b_scheme b) = inr gvk
    /\ typesMap h !! gvk = Some t.
Proof. apply Build_lookup_registered. Qed.

(** X9: the identifiers of the registries of a built handler are exactly those
    that some type registered with some mutator resolves to, whatever the
    order of the [range]. *)
Theorem Build_registers_declared ro b h gvk :
  Build ro b = inr h ->
  (is_Some (typesMap h !! gvk) <->
   exists m ts, b_mutatorMap b !! m = Some ts /\ declares (b_scheme b) gvk ts)
  /\ (is_Some (mutatorMap h !! gvk) <->
      exists m ts, b_mutatorMap b !! m = Some ts /\ declares (b_scheme b) gvk ts).
Proof.
  intros Hb. destruct (Build_lookup ro b h gvk Hb) as [-> ->].
  rewrite !fmap_is_Some.
  assert (is_Some (winner (b_scheme b) gvk (range ro (b_mutatorMap b))) <->
          exists m ts, b_mutatorMap b !! m = Some ts /\ declares (b_scheme b) gvk ts)
    as Hiff; [|done].
  split.
  - intros [[m t] Hw]. apply visit_fold_Some in Hw as [(ts & Hin & Hd)|Hnone]; [|done].
    exists m, ts. split; [by apply range_lookup in Hin|].
    apply declared_is_Some. by rewrite Hd.
  - intros (m & ts & Hm & Hd). apply not_eq_None_Some. intros Hnone.
    apply visit_fold_None with (e := (m, ts)) in Hnone; [|by apply range_lookup].
    cbn in Hnone. by apply declared_None in Hnone.
Qed.

Lemma foldl_register_fields mutator h (entries : list (GroupVersionKind * Object)) :
  predicates (foldl (register mutator) h entries) = predicates h
  /\ decoder (foldl (register mutator) h entries) = decoder h
  /\ scheme (foldl (register mutator) h entries) = scheme h.
Proof.
  revert h. induction entries as [|e rest IH]; intros h; cbn; [done|].
  by destruct (IH (register mutator h e)) as (-> & -> & ->).
Qed.

Lemma buildLoop_fields ro sch entries h h' :
  buildLoop ro sch entries h = inr h' ->
  predicates h' = predicates h /\ decoder h' = decoder h /\ scheme h' = scheme h.
Proof.
  revert h. induction entries as [|[m ts] rest IH]; intros h; cbn.
  - by intros [= ->].
  - destruct (buildTypesMap sch ts) as [err|tm]; [done|].
    intros Hrest. destruct (IH _ Hrest) as (-> & -> & ->).
    apply foldl_register_fields.
Qed.

(** X10: a built handler evaluates the predicates of the builder, in the order
    they were added, and decodes with the universal decoder of the builder's
    scheme; registering mutators and validators changes neither. *)
Theorem Build_predicates_decoder ro b h :
  Build ro b = inr h ->
  predicates h = b_predicates b
  /\ decoder h = UniversalDecoder (b_scheme b)
  /\ scheme h = b_scheme b
  /\ (forall ps m ts v ts',
        b_predicates (WithValidator v ts' (WithMutator m ts (WithPredicates ps b)))
        = b_predicates b ++ ps).
Proof.
  intros Hb. destruct (buildLoop_fields _ _ _ _ _ Hb) as (-> & -> & ->).
  by repeat split.
Qed.

End Builder.

(** ** From registration to dispatch *)

Section Dispatch.

Context `{W : World}.

(** X11: registering types twice under the same mutator is registering the two
    slices one after the other. *)
Theorem WithMutator_accumulates m ts1 ts2 (b : HandlerBuilder) :
  WithMutator m ts2 (WithMutator m ts1 b) = WithMutator m (ts1 ++ ts2) b.
Proof.
  unfold WithMutator, typesOf. cbn.
  rewrite !lookup_insert_eq. cbn. rewrite !insert_insert_eq.
  by rewrite <- !app_assoc.
Qed.

(** X13: a builder without mutators builds a handler with empty registries, which
    denies every request as an unexpected kind, with status 400 and before
    any call. *)
Theorem Build_nothing_registered ro b :
  b_mutatorMap b = ∅ ->
  exists h, Build ro b = inr h
            /\ typesMap h = ∅ /\ mutatorMap h = ∅
            /\ forall ro' ctx req,
                Handle ro' h ctx req
                = ([], Deny 400 (UnexpectedRequestKind (ReqKind req))).
Proof.
  intros Hempty. unfold Build.
  assert (range ro (b_mutatorMap b) = []) as ->.
  { apply Permutation_nil_r. rewrite range_perm, Hempty. by rewrite map_to_list_empty. }
  cbn. eexists. split; [reflexivity|]. cbn. split; [done|]. split; [done|].
  intros ro' ctx req. unfold Handle. rewrite resolve_lookup. cbn.
  by rewrite !lookup_empty.
Qed.

Lemma resolve_Some {V : Type} ro (registry : gmap GroupVersionKind V) kind v :
  resolve ro registry kind = Some v ->
  exists key, (key = kind \/ key = internalOf kind) /\ registry !! key = Some v.
Proof.
  rewrite resolve_lookup. destruct (registry !! kind) as [v'|] eqn:Hk.
  - intros [= ->]. exists kind. auto.
  - intros Hi. exists (internalOf kind). auto.
Qed.

(** X14: a handler built from validators only, or from mutators on which the
    assertion [m.(Validator)] holds, never answers with a patch. *)
Theorem validators_only_never_patch ro ro' b h ctx req :
  (forall m ts, b_mutatorMap b !! m = Some ts -> assertValidator m = true) ->
  Build ro b = inr h ->
  isAllowPatch (Handle ro' h ctx req).2 = false.
Proof.
  intros Hall Hb.
  destruct (resolve ro' (mutatorMap h) (ReqKind req)) as [m|] eqn:Hm.
  - apply (Handle_validator_never_patches ro' h ctx req m Hm).
    apply resolve_Some in Hm as (key & _ & Hkey).
    destruct (Build_lookup_registered ro b h key m Hb Hkey) as (ts & t & Hts & _).
    by apply (Hall m ts).
  - unfold Handle. rewrite Hm. by destruct (resolve ro' (typesMap h) (ReqKind req)).
Qed.

(** X15: in a built handler the prototype and the mutator of a request come from
    the same entry: both under the identifier of the request, or both under
    the internal version of its group and kind; when there is neither, the
    request is denied as an unexpected kind. *)
Theorem Build_Handle_same_entry ro ro' b h ctx req :
  Build ro b = inr h ->
  (exists key m t,
      (key = ReqKind req \/ key = internalOf (ReqKind req))
      /\ mutatorMap h !! key = Some m /\ typesMap h !! key = Some t
      /\ Handle ro' h ctx req = handle ctx req m t (decoder h) (predicates h))
  \/ (mutatorMap h !! ReqKind req = None /\ typesMap h !! ReqKind req = None
      /\ mutatorMap h !! internalOf (ReqKind req) = None
      /\ typesMap h !! internalOf (ReqKind req) = None
      /\ Handle ro' h ctx req = ([], Deny 400 (UnexpectedRequestKind (ReqKind req)))).
Proof.
  intros Hb. unfold Handle. rewrite !resolve_lookup.
  destruct (Build_lookup ro b h (ReqKind req) Hb) as [Hm Ht].
  destruct (Build_lookup ro b h (internalOf (ReqKind req)) Hb) as [Hmi Hti].
  rewrite Hm, Ht, Hmi, Hti.
  destruct (winner (b_scheme b) (ReqKind req) _) as [[m t]|]; cbn.
  - left. exists (ReqKind req), m, t. rewrite Hm, Ht. auto.
  - destruct (winner (b_scheme b) (internalOf (ReqKind req)) _) as [[m t]|]; cbn.
    + left. exists (internalOf (ReqKind req)), m, t. rewrite Hmi, Hti. auto.
    + right. auto.
Qed.

Lemma Build_uncontested_lookup ro b h gvk m ts t :
  uncontested b ->
  Build ro b = inr h ->
  b_mutatorMap b !! m = Some ts ->
  declared (b_scheme b) gvk ts = Some t ->
  mutatorMap h !! gvk = Some m /\ typesMap h !! gvk = Some t.
Proof.
  intros Hun Hb Hm Ht. destruct (Build_lookup ro b h gvk Hb) as [-> ->].
  rewrite (winner_alone (b_scheme b) gvk (range ro (b_mutatorMap b)) m ts t); [done|..].
  - apply range_NoDup.
  - by apply range_lookup.
  - done.
  - intros m' ts' Hin Hne. apply range_lookup in Hin.
    apply declared_None. intros Hd. apply Hne.
    apply (Hun gvk m' ts' m ts Hin Hm Hd). apply declared_is_Some. by rewrite Ht.
Qed.

(** X16: from registration to dispatch: when no identifier is declared under two
    mutators, a request for an identifier declared under [m] is handled by
    [m], with the last prototype [m] declared for it, the decoder of the
    builder's scheme and the builder's predicates, in every order of the
    [range]s. *)
Theorem registered_kind_dispatches ro ro' b h ctx req m ts t :
  uncontested b ->
  Build ro b = inr h ->
  b_mutatorMap b !! m = Some ts ->
  declared (b_scheme b) (ReqKind req) ts = Some t ->
  Handle ro' h ctx req
  = handle ctx req m t (UniversalDecoder (b_scheme b)) (b_predicates b).
Proof.
  intros Hun Hb Hm Ht.
  destruct (Build_uncontested_lookup ro b h (ReqKind req) m ts t Hun Hb Hm Ht)
    as [Hmm Htm].
  destruct (buildLoop_fields _ _ _ _ _ Hb) as (Hp & Hd & _). cbn in Hp, Hd.
  unfold Handle. by rewrite !resolve_lookup, Hmm, Htm, Hp, Hd.
Qed.

(** X17: when no identifier is declared under two mutators, the handler [Build]
    returns does not depend on the order in which the builder's map is
    visited. *)
Theorem Build_any_order ro ro' b h h' :
  uncontested b ->
  Build ro b = inr h ->
  Build ro' b = inr h' ->
  h = h'.
Proof.
  intros Hun Hb Hb'.
  destruct (buildLoop_fields _ _ _ _ _ Hb) as (Hp & Hd & Hs).
  destruct (buildLoop_fields _ _ _ _ _ Hb') as (Hp' & Hd' & Hs').
  cbn in Hp, Hd, Hs, Hp', Hd', Hs'.
  assert (forall gvk, mutatorMap h !! gvk = mutatorMap h' !! gvk
                      /\ typesMap h !! gvk = typesMap h' !! gvk) as Hsame.
  { intros gvk. destruct (Build_lookup ro b h gvk Hb) as [Hm Ht].
    destruct (winner (b_scheme b) gvk (range ro (b_mutatorMap b))) as [[m t]|] eqn:Hw.
    - apply visit_fold_Some in Hw as [(ts & Hin & Hdecl)|Hnone]; [|done].
      apply range_lookup in Hin.
      destruct (Build_uncontested_lookup ro' b h' gvk m ts t Hun Hb' Hin Hdecl)
        as [-> ->].
      by rewrite Hm, Ht.
    - destruct (Build_lookup ro' b h' gvk Hb') as [Hm' Ht'].
      assert (winner (b_scheme b) gvk (range ro' (b_mutatorMap b)) = None) as Hw'.
      { apply visit_fold_None. intros [m ts] He. apply range_lookup in He.
        apply (proj1 (visit_fold_None _ _ _) Hw (m, ts)). by apply range_lookup. }
      by rewrite Hm, Ht, Hm', Ht', Hw'. }
  destruct h as [tm mm ps d s], h' as [tm' mm' ps' d' s']. cbn in *. subst.
  f_equal; apply map_eq; intros gvk; by destruct (Hsame gvk).
Qed.

End Dispatch.

(** ** Injection into the mutators *)

Section Injection.

Context `{W : World}.

Lemma injectLoop_nil_iff f (entries : list (GroupVersionKind * Mutator)) :
  (injectLoop f entries).2 = None <-> forall e, e ∈ entries -> f e.2 = None.
Proof.
  induction entries as [|[gvk m] rest IH]; cbn.
  - split; [|done]. intros _ e He. by apply elem_of_nil in He.
  - destruct (f m) as [err|] eqn:Hf; cbn.
    + split; [done|]. intros Hall. specialize (Hall (gvk, m)). cbn in Hall.
      rewrite Hf in Hall. discriminate Hall. by left.
    + destruct (injectLoop f rest) as [calls result]. cbn in *. rewrite IH. split.
      * intros Hall e He. apply elem_of_cons in He as [->|He]; [done | by apply Hall].
      * intros Hall e He. apply Hall. by right.
Qed.

Lemma injectLoop_calls_ok f (entries : list (GroupVersionKind * Mutator)) :
  (injectLoop f entries).2 = None -> (injectLoop f entries).1 = entries.*2.
Proof.
  induction entries as [|[gvk m] rest IH]; cbn; [done|].
  destruct (f m) as [err|]; cbn; [done|].
  destruct (injectLoop f rest) as [calls result]. cbn in *.
  intros Hnone. by rewrite IH.
Qed.

Lemma injectLoop_error f (entries : list (GroupVersionKind * Mutator)) e :
  (injectLoop f entries).2 = Some e ->
  exists pre gvk m post err,
    entries = pre ++ (gvk, m) :: post
    /\ (forall e', e' ∈ pre -> f e'.2 = None)
    /\ f m = Some err /\ e = CouldNotInject err
    /\ (injectLoop f entries).1 = pre.*2 ++ [m].
Proof.
  induction entries as [|[gvk m] rest IH]; cbn; [done|].
  destruct (f m) as [err|] eqn:Hf; cbn.
  - intros [= <-]. exists [], gvk, m, rest, err. repeat split; [|done].
    intros e' He'. by apply elem_of_nil in He'.
  - destruct (injectLoop f rest) as [calls result]. cbn in *.
    intros Hres. destruct (IH Hres) as (pre & gvk' & m' & post & err & -> & Hpre & Hm' & -> & ->).
    exists ((gvk, m) :: pre), gvk', m', post, err. repeat split; [|done].
    intros e' He'. apply elem_of_cons in He' as [->|He']; [done | by apply Hpre].
Qed.

(** X18: [InjectFunc] returns nil exactly when the injection succeeds on the
    mutator of every entry of the mutator registry, whatever the order of the
    [range]. *)
Theorem InjectFunc_nil_iff ro h f :
  (InjectFunc ro h f).2 = None <->
  forall gvk m, mutatorMap h !! gvk = Some m -> f m = None.
Proof.
  unfold InjectFunc. rewrite injectLoop_nil_iff. split.
  - intros Hall gvk m Hm. apply (Hall (gvk, m)). by apply range_lookup.
  - intros Hall [gvk m] He. apply (Hall gvk). by apply range_lookup in He.
Qed.

(** X19: when [InjectFunc] returns nil, the injection was called once for every
    entry of the mutator registry: a mutator registered for several
    identifiers is injected once for each of them. *)
Theorem InjectFunc_calls_per_entry ro h f :
  (InjectFunc ro h f).2 = None ->
  (InjectFunc ro h f).1 ≡ₚ (map_to_list (mutatorMap h)).*2
  /\ length (InjectFunc ro h f).1 = size (mutatorMap h).
Proof.
  intros Hnone. unfold InjectFunc in *.
  rewrite (injectLoop_calls_ok _ _ Hnone).
  assert ((range ro (mutatorMap h)).*2 ≡ₚ (map_to_list (mutatorMap h)).*2) as Hperm.
  { by rewrite range_perm. }
  split; [done|]. by rewrite Hperm, length_fmap, length_map_to_list.
Qed.

(** X20: when [InjectFunc] returns an error, it is the error of the injection on a
    registered mutator, wrapped; that mutator is the last one the injection
    was called on, the injection succeeded on all mutators before it, and
    every mutator it was called on is registered. *)
Theorem InjectFunc_error ro h f e :
  (InjectFunc ro h f).2 = Some e ->
  exists visited gvk m err,
    (InjectFunc ro h f).1 = visited ++ [m]
    /\ mutatorMap h !! gvk = Some m
    /\ f m = Some err /\ e = CouldNotInject err
    /\ forall m', m' ∈ visited ->
                  f m' = None /\ exists gvk', mutatorMap h !! gvk' = Some m'.
Proof.
  intros He. unfold InjectFunc in *.
  destruct (injectLoop_error _ _ _ He)
    as (pre & gvk & m & post & err & Hsplit & Hpre & Hm & -> & ->).
  exists pre.*2, gvk, m, err. split; [done|]. split.
  { apply (range_lookup ro). rewrite Hsplit. apply elem_of_app. right. by left. }
  split; [done|]. split; [done|].
  intros m' Hin. apply list_elem_of_fmap in Hin as ([gvk' m''] & -> & Hin). cbn.
  split; [by apply (Hpre (gvk', m''))|].
  exists gvk'. apply (range_lookup ro). rewrite Hsplit. apply elem_of_app. by left.
Qed.

End Injection.

(** ** The further properties at concrete requests and builders *)

(** [mutate_error_denies] at the mutator that refuses everything. *)
Lemma mutate_error_denies_witness :
  (handle tt (request widgetV1 [x01] []) grumpy (Widget "v1" 0) tt []).2
  = Deny 400 (ErrorOf "no").
Proof.
  eapply (proj1 (mutate_error_denies (W := world) tt (request widgetV1 [x01] []) grumpy
                   (Widget "v1" 0) tt [] (Widget "v1" 1) None (Widget "v1" 1)
                   "no"%string _ _ _ _ _)).
  Unshelve.
  - reflexivity.
  - by eexists.
  - reflexivity.
  - reflexivity.
  - reflexivity.
Defined.

(** [Handle_responses] at a handler whose mutator is a wrapped validator. *)
Lemma Handle_responses_witness :
  (Handle asListed meddling tt (request widgetV1 [x07] [])).2 = Allow ""
  \/ exists reason,
      (Handle asListed meddling tt (request widgetV1 [x07] [])).2 = Deny 400 reason.
Proof.
  apply (proj2 (Handle_responses (W := world) asListed meddling tt
                  (request widgetV1 [x07] [])) meddler).
  - vm_compute. reflexivity.
  - reflexivity.
Defined.

(** [handle_calls] at the doubled widget: it was serialized, so the doubler is
    no validator. *)
Lemma handle_calls_witness :
  assertValidator doubler = false.
Proof.
  apply (proj2 (handle_calls (W := world) tt (request widgetV1 [x01] []) doubler
                  (Widget "v1" 0) tt [])).
  vm_compute. repeat first [ apply list_elem_of_here | apply list_elem_of_further ].
Defined.

(** [buildTypesMap_entries] at a slice that declares the widget twice. *)
Lemma buildTypesMap_entries_witness :
  exists tm, buildTypesMap tt [Widget "v1" 3; Bare 0; Widget "v1" 4] = inr tm
             /\ forall gvk, is_Some (tm !! gvk)
                            <-> declares tt gvk [Widget "v1" 3; Bare 0; Widget "v1" 4].
Proof.
  destruct (buildTypesLoop_succeeds (W := world) tt [Widget "v1" 3; Bare 0; Widget "v1" 4] ∅)
    as [tm Htm].
  { intros t Ht.
    repeat (apply elem_of_cons in Ht as [->|Ht]; [by eexists|]).
    by apply elem_of_nil in Ht. }
  exists tm. split; [exact Htm|].
  apply (buildTypesMap_entries (W := world) tt [Widget "v1" 3; Bare 0; Widget "v1" 4] tm Htm).
Defined.

(** [buildTypesMap_error] at a slice with a type the scheme does not know. *)
Lemma buildTypesMap_error_witness :
  buildTypesMap tt [Widget "v1" 0; Unregistered; Bare 1]
  = inl (CouldNotGetGVK Unregistered "no kind is registered for the type").
Proof.
  apply (proj2 (buildTypesMap_error (W := world) tt [Widget "v1" 0; Unregistered; Bare 1] _)).
  exists [Widget "v1" 0], Unregistered, [Bare 1], "no kind is registered for the type"%string.
  split; [reflexivity|]. split; [|split; reflexivity].
  intros t' Ht'. apply list_elem_of_singleton in Ht' as ->. by eexists.
Defined.

(** [Build_succeeds_iff] at a builder with a type the scheme does not know. *)
Lemma Build_succeeds_iff_witness :
  exists m ts, b_mutatorMap withUnregistered !! m = Some ts /\ Unregistered ∈ ts
               /\ GVKForObject Unregistered tt = inl "no kind is registered for the type"%string.
Proof.
  apply (proj2 (Build_succeeds_iff (W := world) asListed withUnregistered)).
  vm_compute. reflexivity.
Defined.

(** What [Build] returns for a builder all of whose types resolve, by the
    winners. *)
Lemma Build_winners `{W : World} ro (b : HandlerBuilder) :
  (forall m ts t, b_mutatorMap b !! m = Some ts -> t ∈ ts ->
                  exists gvk, GVKForObject t (b_scheme b) = inr gvk) ->
  exists h, Build ro b = inr h
            /\ forall gvk,
                mutatorMap h !! gvk
                = fst <$> winner (b_scheme b) gvk (range ro (b_mutatorMap b))
                /\ typesMap h !! gvk
                   = snd <$> winner (b_scheme b) gvk (range ro (b_mutatorMap b)).
Proof.
  intros Hall. destruct (buildLoop_succeeds ro (b_scheme b) (range ro (b_mutatorMap b))
                           {| typesMap := ∅; mutatorMap := ∅;
                              predicates := b_predicates b;
                              decoder := UniversalDecoder (b_scheme b);
                              scheme := b_scheme b |}) as [h Hb].
  { intros m ts t Hin Ht. apply (Hall m ts); [|done]. by apply range_lookup in Hin. }
  exists h. split; [done|]. intros gvk. by apply Build_lookup.
Qed.

Ltac resolve_all :=
  let Hm := fresh "Hm" in
  let Ht := fresh "Ht" in
  intros ? ? ? Hm Ht;
  apply elem_of_map_to_list in Hm; vm_compute in Hm;
  repeat (apply elem_of_cons in Hm as [Hm|Hm];
          [injection Hm as -> ->;
           repeat (apply elem_of_cons in Ht as [->|Ht]; [by eexists|]);
           by apply elem_of_nil in Ht|]);
  by apply elem_of_nil in Hm.

Lemma twoVersions_resolves :
  forall m ts t, b_mutatorMap twoVersions !! m = Some ts -> t ∈ ts ->
                 exists gvk, GVKForObject t (b_scheme twoVersions) = inr gvk.
Proof. resolve_all. Qed.

Lemma validatorsOnly_resolves :
  forall m ts t, b_mutatorMap validatorsOnly !! m = Some ts -> t ∈ ts ->
                 exists gvk, GVKForObject t (b_scheme validatorsOnly) = inr gvk.
Proof. resolve_all. Qed.

(** [Build_entries_registered] at the widget of version v2. *)
Lemma Build_entries_registered_witness :
  exists h, Build asListed twoVersions = inr h
            /\ exists ts t, b_mutatorMap twoVersions !! doubler = Some ts /\ t ∈ ts
                            /\ GVKForObject t tt = inr widgetV2
                            /\ typesMap h !! widgetV2 = Some t.
Proof.
  destruct (Build_winners asListed twoVersions twoVersions_resolves) as (h & Hb & Hw).
  exists h. split; [exact Hb|].
  apply (Build_entries_registered (W := world) asListed twoVersions h widgetV2 doubler Hb).
  rewrite (proj1 (Hw widgetV2)). vm_compute. reflexivity.
Defined.

(** [Build_registers_declared] at the same builder and identifier. *)
Lemma Build_registers_declared_witness :
  exists h, Build backwards twoVersions = inr h
            /\ (is_Some (typesMap h !! widgetV2) <->
                exists m ts, b_mutatorMap twoVersions !! m = Some ts
                             /\ declares tt widgetV2 ts).
Proof.
  destruct (Build_winners backwards twoVersions twoVersions_resolves) as (h & Hb & _).
  exists h. split; [exact Hb|].
  apply (proj1 (Build_registers_declared (W := world) backwards twoVersions h widgetV2 Hb)).
Defined.

(** [Build_predicates_decoder] at a builder with a predicate. *)
Lemma Build_predicates_decoder_witness :
  exists h, Build asListed (WithPredicates [isPositive] twoVersions) = inr h
            /\ predicates h = [isPositive].
Proof.
  destruct (Build_winners asListed (WithPredicates [isPositive] twoVersions)
              twoVersions_resolves) as (h & Hb & _).
  exists h. split; [exact Hb|].
  apply (Build_predicates_decoder (W := world) asListed
           (WithPredicates [isPositive] twoVersions) h Hb).
Defined.

(** [WithMutator_comm] at the doubler and the idle mutator. *)
Lemma WithMutator_comm_witness :
  WithMutator idle [Bare 0] (WithMutator doubler [Widget "v1" 0] (NewBuilder tt))
  = WithMutator doubler [Widget "v1" 0] (WithMutator idle [Bare 0] (NewBuilder tt)).
Proof.
  apply (WithMutator_comm (W := world) doubler [Widget "v1" 0] idle [Bare 0]).
  discriminate.
Defined.

(** [Build_nothing_registered] at a new builder with predicates. *)
Lemma Build_nothing_registered_witness :
  exists h, Build backwards predicatesOnly = inr h
            /\ typesMap h = ∅ /\ mutatorMap h = ∅
            /\ forall ro' ctx req,
                Handle ro' h ctx req
                = ([], Deny 400 (UnexpectedRequestKind (ReqKind req))).
Proof.
  apply (Build_nothing_registered (W := world) backwards predicatesOnly).
  reflexivity.
Defined.

(** [validators_only_never_patch] at a builder with two validators. *)
Lemma validators_only_never_patch_witness :
  exists h, Build asListed validatorsOnly = inr h
            /\ isAllowPatch (Handle backwards h tt (request widgetV1 [x07] [])).2 = false.
Proof.
  destruct (Build_winners asListed validatorsOnly validatorsOnly_resolves) as (h & Hb & _).
  exists h. split; [exact Hb|].
  apply (validators_only_never_patch (W := world) asListed backwards validatorsOnly h tt
           (request widgetV1 [x07] [])); [|exact Hb].
  intros m ts Hm. apply elem_of_map_to_list in Hm. vm_compute in Hm.
  apply elem_of_cons in Hm as [[= -> ->]|Hm]; [reflexivity|].
  apply list_elem_of_singleton in Hm as [= -> ->]. reflexivity.
Defined.

(** [Build_Handle_same_entry] at a request for the widget of version v2. *)
Lemma Build_Handle_same_entry_witness :
  exists h, Build asListed twoVersions = inr h
            /\ ((exists key m t,
                    (key = widgetV2 \/ key = internalOf widgetV2)
                    /\ mutatorMap h !! key = Some m /\ typesMap h !! key = Some t
                    /\ Handle backwards h tt (request widgetV2 [x01] [])
                       = handle tt (request widgetV2 [x01] []) m t (decoder h) (predicates h))
                \/ (mutatorMap h !! widgetV2 = None /\ typesMap h !! widgetV2 = None
                    /\ mutatorMap h !! internalOf widgetV2 = None
                    /\ typesMap h !! internalOf widgetV2 = None
                    /\ Handle backwards h tt (request widgetV2 [x01] [])
                       = ([], Deny 400 (UnexpectedRequestKind widgetV2)))).
Proof.
  destruct (Build_winners asListed twoVersions twoVersions_resolves) as (h & Hb & _).
  exists h. split; [exact Hb|].
  apply (Build_Handle_same_entry (W := world) asListed backwards twoVersions h tt
           (request widgetV2 [x01] []) Hb).
Defined.

(** In [twoVersions] no identifier is declared under two mutators. *)
Lemma twoVersions_uncontested : uncontested twoVersions.
Proof.
  intros gvk m1 ts1 m2 ts2 H1 H2 (t1 & Ht1 & Hg1) (t2 & Ht2 & Hg2).
  apply elem_of_map_to_list in H1, H2. vm_compute in H1, H2.
  apply elem_of_cons in H1 as [[= -> ->]|H1], H2 as [[= -> ->]|H2];
    try apply list_elem_of_singleton in H1 as [= -> ->];
    try apply list_elem_of_singleton in H2 as [= -> ->];
    try reflexivity; exfalso;
    repeat match goal with
           | H : _ ∈ _ :: _ |- _ => apply elem_of_cons in H as [->|H]
           | H : _ ∈ [] |- _ => by apply elem_of_nil in H
           end;
    cbn in Hg1, Hg2; congruence.
Qed.

(** [registered_kind_dispatches] at a request for the widget of version v2. *)
Lemma registered_kind_dispatches_witness :
  exists h, Build asListed twoVersions = inr h
            /\ Handle backwards h tt (request widgetV2 [x01] [])
               = handle tt (request widgetV2 [x01] []) doubler (Widget "v2" 0) tt [].
Proof.
  destruct (Build_winners asListed twoVersions twoVersions_resolves) as (h & Hb & _).
  exists h. split; [exact Hb|].
  apply (registered_kind_dispatches (W := world) asListed backwards twoVersions h tt
           (request widgetV2 [x01] []) doubler [Widget "v1" 0; Widget "v2" 0]
           (Widget "v2" 0) twoVersions_uncontested Hb);
    vm_compute; reflexivity.
Defined.

(** [Build_any_order] at the two orders of the same builder. *)
Lemma Build_any_order_witness :
  exists h h', Build asListed twoVersions = inr h
               /\ Build backwards twoVersions = inr h' /\ h = h'.
Proof.
  destruct (Build_winners asListed twoVersions twoVersions_resolves) as (h & Hb & _).
  destruct (Build_winners backwards twoVersions twoVersions_resolves) as (h' & Hb' & _).
  exists h, h'. split; [exact Hb|]. split; [exact Hb'|].
  apply (Build_any_order (W := world) asListed backwards twoVersions h h'
           twoVersions_uncontested Hb Hb').
Defined.

(** [InjectFunc_nil_iff] at an injection that always succeeds. *)
Lemma InjectFunc_nil_iff_witness :
  (InjectFunc backwards threeEntries (fun _ => None)).2 = None.
Proof.
  apply (proj2 (InjectFunc_nil_iff (W := world) backwards threeEntries (fun _ => None))).
  reflexivity.
Defined.

(** [InjectFunc_calls_per_entry] at a handler with one mutator for two
    identifiers: the mutator is injected twice. *)
Lemma InjectFunc_calls_per_entry_witness :
  (InjectFunc asListed threeEntries (fun _ => None)).1 = [doubler; doubler; idle]
  /\ length (InjectFunc asListed threeEntries (fun _ => None)).1
     = size (mutatorMap threeEntries).
Proof.
  split; [vm_compute; reflexivity|].
  apply (InjectFunc_calls_per_entry (W := world) asListed threeEntries (fun _ => None)).
  vm_compute. reflexivity.
Defined.

(** [InjectFunc_error] at the injection that fails on the idle mutator. *)
Lemma InjectFunc_error_witness :
  exists visited gvk m err,
    (InjectFunc asListed threeEntries rejectIdle).1 = visited ++ [m]
    /\ mutatorMap threeEntries !! gvk = Some m
    /\ rejectIdle m = Some err
    /\ CouldNotInject "no client" = CouldNotInject err
    /\ forall m', m' ∈ visited ->
                  rejectIdle m' = None
                  /\ exists gvk', mutatorMap threeEntries !! gvk' = Some m'.
Proof.
  apply (InjectFunc_error (W := world) asListed threeEntries rejectIdle).
  vm_compute. reflexivity.
Defined.
